(** * claude-dot-ai-share-scraper: the extraction core, embedded and verified

    A shallow embedding of [utils.py] and of [parser.py]'s
    [ConversationParser], followed by the properties of the specification
    stated and settled against it.

    Conventions of the embedding.
    - A Python [str] is a [string] of ASCII characters; white space and
      case mapping are those Python gives them.
    - The tree BeautifulSoup builds is a [node]; an element of a document is
      addressed by the list of child indices leading to it from the
      [BeautifulSoup] object, which is what [.parent] and
      [.previous_siblings] are read from.
    - Pygments is an optional import of the parser; its three outcomes
      (module absent, lexer found, [ClassNotFound]) are the fields of
      [Pygments.env]. *)

From Stdlib Require Import String Ascii List Bool Arith Lia DecimalString Sorted.
From Stdlib Require Import ZArith Permutation.
Import ListNotations.
Open Scope list_scope.
Open Scope string_scope.
Set Warnings "-register-all".

(* ================================================================== *)
(** * Python strings *)
(* ================================================================== *)

Module PyStr.

Definition LF : ascii := "010"%char.
Definition nl : string := String LF "".

(** The code point of [c] lies in [lo..hi]. *)
Definition in_range (lo hi : nat) (c : ascii) : bool :=
  Nat.leb lo (nat_of_ascii c) && Nat.leb (nat_of_ascii c) hi.

(** [str.isspace] on one character: TAB LF VT FF CR, FS GS RS US, SPACE.
    The same class is regular-expression [\s]. *)
Definition isspace (c : ascii) : bool :=
  in_range 9 13 c || in_range 28 32 c.

Definition is_upper (c : ascii) : bool := in_range 65 90 c.

Definition is_lower (c : ascii) : bool := in_range 97 122 c.

Definition is_digit (c : ascii) : bool := in_range 48 57 c.

Definition is_alpha (c : ascii) : bool := is_upper c || is_lower c.

Definition lower_char (c : ascii) : ascii :=
  if is_upper c then ascii_of_nat (nat_of_ascii c + 32) else c.

Definition upper_char (c : ascii) : ascii :=
  if is_lower c then ascii_of_nat (nat_of_ascii c - 32) else c.

Fixpoint map_chars (f : ascii -> ascii) (s : string) : string :=
  match s with
  | "" => ""
  | String c r => String (f c) (map_chars f r)
  end.

(** [s.lower()] and [s.upper()] *)
Definition lower : string -> string := map_chars lower_char.
Definition upper : string -> string := map_chars upper_char.

(** [not s] for a string *)
Definition is_empty (s : string) : bool :=
  match s with "" => true | _ => false end.

(** [s.startswith(p)] *)
Fixpoint startswith (p s : string) : bool :=
  match p, s with
  | "", _ => true
  | String a p', String b s' => Ascii.eqb a b && startswith p' s'
  | String _ _, "" => false
  end.

(** The rest of [s] after the prefix [p], when [s] starts with [p]. *)
Fixpoint strip_prefix (p s : string) : option string :=
  match p, s with
  | "", _ => Some s
  | String a p', String b s' =>
      if Ascii.eqb a b then strip_prefix p' s' else None
  | String _ _, "" => None
  end.

(** [p in s] *)
Fixpoint contains (p s : string) : bool :=
  startswith p s ||
  match s with
  | "" => false
  | String _ r => contains p r
  end.

(** [c in s] for a single character. *)
Fixpoint has_char (c : ascii) (s : string) : bool :=
  match s with
  | "" => false
  | String d r => Ascii.eqb c d || has_char c r
  end.

Fixpoint take_while (p : ascii -> bool) (s : string) : string :=
  match s with
  | "" => ""
  | String c r => if p c then String c (take_while p r) else ""
  end.

Fixpoint drop_while (p : ascii -> bool) (s : string) : string :=
  match s with
  | "" => ""
  | String c r => if p c then drop_while p r else s
  end.

(** [s.lstrip()] *)
Definition lstrip : string -> string := drop_while isspace.

(** [s.rstrip()]: a character goes when it is white space and nothing
    survives to its right. *)
Fixpoint rstrip (s : string) : string :=
  match s with
  | "" => ""
  | String c r =>
      let r' := rstrip r in
      if isspace c && is_empty r' then "" else String c r'
  end.

(** [s.strip()] *)
Definition strip (s : string) : string := rstrip (lstrip s).

(** [s.split(sep)] for a one-character separator: never an empty list. *)
Fixpoint split (sep : ascii) (s : string) : list string :=
  match s with
  | "" => [""]
  | String c r =>
      if Ascii.eqb c sep then "" :: split sep r
      else match split sep r with
           | [] => [String c ""]
           | w :: ws => String c w :: ws
           end
  end.

(** [sep.join(parts)] *)
Fixpoint join (sep : string) (parts : list string) : string :=
  match parts with
  | [] => ""
  | [p] => p
  | p :: ps => p ++ sep ++ join sep ps
  end.

(** [s.replace(old, new)] for a non-empty [old]: occurrences are taken left
    to right and do not overlap. [skip] counts the characters of a replaced
    occurrence still to be passed over. *)
Fixpoint replace_from (old new : string) (skip : nat) (s : string) : string :=
  match s with
  | "" => ""
  | String c r =>
      match skip with
      | S k => replace_from old new k r
      | O => if startswith old s
             then new ++ replace_from old new (String.length old - 1) r
             else String c (replace_from old new 0 r)
      end
  end.

Definition replace (old new s : string) : string := replace_from old new 0 s.

(** Cut [s] before the first character satisfying [p]. *)
Fixpoint break (p : ascii -> bool) (s : string) : string * string :=
  match s with
  | "" => ("", "")
  | String c r =>
      if p c then ("", s)
      else let (a, b) := break p r in (String c a, b)
  end.

Fixpoint filter_chars (p : ascii -> bool) (s : string) : string :=
  match s with
  | "" => ""
  | String c r => if p c then String c (filter_chars p r) else filter_chars p r
  end.

Fixpoint all_chars (p : ascii -> bool) (s : string) : bool :=
  match s with
  | "" => true
  | String c r => p c && all_chars p r
  end.

(** [x in l] for a list of strings *)
Definition mem (x : string) (l : list string) : bool :=
  existsb (String.eqb x) l.

(** The first [n] characters. *)
Fixpoint take (n : nat) (s : string) : string :=
  match n, s with
  | S k, String c r => String c (take k r)
  | _, _ => ""
  end.

(** [s[:k]] for any integer [k]: a negative [k] counts from the end. *)
Definition slice_to (k : Z) (s : string) : string :=
  if (0 <=? k)%Z then take (Z.to_nat k) s
  else take (String.length s - Z.to_nat (- k)) s.

(** [len(s)] as an integer *)
Definition len (s : string) : Z := Z.of_nat (String.length s).

(** [s.lstrip(chars)], [s.rstrip(chars)] and [s.strip(chars)], the
    characters to strip being those satisfying [p]. *)
Definition lstrip_by (p : ascii -> bool) : string -> string := drop_while p.

Fixpoint rstrip_by (p : ascii -> bool) (s : string) : string :=
  match s with
  | "" => ""
  | String c r =>
      let r' := rstrip_by p r in
      if p c && is_empty r' then "" else String c r'
  end.

Definition strip_by (p : ascii -> bool) (s : string) : string :=
  rstrip_by p (lstrip_by p s).

(** [re.sub(X+, c, s)] for a character class [X] given as [p]: every maximal
    run of characters of the class becomes one [c]. [in_run] says the
    previous character belonged to a run already replaced. *)
Fixpoint sub_runs_from (p : ascii -> bool) (c : ascii) (in_run : bool)
         (s : string) : string :=
  match s with
  | "" => ""
  | String x r =>
      if p x
      then if in_run then sub_runs_from p c true r
           else String c (sub_runs_from p c true r)
      else String x (sub_runs_from p c false r)
  end.

Definition sub_runs (p : ascii -> bool) (c : ascii) (s : string) : string :=
  sub_runs_from p c false s.

End PyStr.

Import PyStr.

(* ================================================================== *)
(** * utils.py *)
(* ================================================================== *)

Module Utils.

(** The class [[a-f0-9-]] *)
Definition is_id_char (c : ascii) : bool :=
  in_range 97 102 c || is_digit c || Ascii.eqb c "-".

(** [claude\.ai/share/([a-f0-9-]+)] tried at the start of [s]; the repetition
    is greedy, the result is group 1. *)
Definition match_share_at (s : string) : option string :=
  match strip_prefix "claude.ai/share/" s with
  | Some rest =>
      match take_while is_id_char rest with
      | "" => None
      | g => Some g
      end
  | None => None
  end.

(** [re.search(pattern, url)]: the leftmost position where the pattern
    matches. *)
Fixpoint search_share (s : string) : option string :=
  match match_share_at s with
  | Some g => Some g
  | None =>
      match s with
      | "" => None
      | String _ r => search_share r
      end
  end.

Definition extract_share_id (url : string) : option string :=
  search_share url.

(** ** [urllib.parse.urlparse] *)

Record ParseResult := mkParseResult {
  scheme : string;
  netloc : string;
  path : string;
  params : string;
  query : string;
  fragment : string
}.

Definition is_c0_or_space (c : ascii) : bool := in_range 0 32 c.

Definition is_unsafe_byte (c : ascii) : bool :=
  Ascii.eqb c "009" || Ascii.eqb c "010" || Ascii.eqb c "013".

Definition is_scheme_char (c : ascii) : bool :=
  is_alpha c || is_digit c ||
  Ascii.eqb c "+" || Ascii.eqb c "-" || Ascii.eqb c ".".

Definition uses_params : list string :=
  [""; "ftp"; "hdl"; "prospero"; "http"; "imap"; "https"; "shttp"; "rtsp";
   "rtspu"; "sip"; "sips"; "mms"; "sftp"; "tel"].

(** [url.split(c, 1)] when [c] occurs, as (before, after). *)
Definition split_once (c : ascii) (s : string) : string * string :=
  let (a, b) := break (Ascii.eqb c) s in
  match b with
  | "" => (a, "")
  | String _ r => (a, r)
  end.

(** The scheme, when the text before the first colon is one. *)
Definition split_scheme (url : string) : string * string :=
  let (pre, rest) := break (Ascii.eqb ":") url in
  match pre, rest with
  | String c0 _, String _ after =>
      if is_alpha c0 && all_chars is_scheme_char pre
      then (lower pre, after)
      else ("", url)
  | _, _ => ("", url)
  end.

Definition is_netloc_delim (c : ascii) : bool :=
  Ascii.eqb c "/" || Ascii.eqb c "?" || Ascii.eqb c "#".

(** [_splitnetloc(url, 2)] behind a leading [//] *)
Definition split_netloc (url : string) : string * string :=
  match url with
  | String "/" (String "/" r) => break is_netloc_delim r
  | _ => ("", url)
  end.

(** Cut [s] after its last slash: (up to and including it, the rest). *)
Fixpoint split_last_slash (s : string) : string * string :=
  match s with
  | "" => ("", "")
  | String c r =>
      let (h, t) := split_last_slash r in
      if has_char "/" r then (String c h, t)
      else if Ascii.eqb c "/" then (String c "", r)
      else ("", s)
  end.

(** [_splitparams]: the first semicolon of the last path segment. *)
Definition splitparams (url : string) : string * string :=
  let (h, t) := split_last_slash url in
  if has_char ";" t
  then let (a, b) := split_once ";" t in (h ++ a, b)
  else (url, "").

(** [urlparse(url)]. The call raises [ValueError] only for a network location
    holding a square bracket or a character outside ASCII; neither is part of
    ["claude.ai"], and the caller below answers [False] to the exception as
    it does to a different host, so the exception is not represented. *)
Definition urlparse (url0 : string) : ParseResult :=
  let url1 := drop_while is_c0_or_space url0 in
  let url2 := filter_chars (fun c => negb (is_unsafe_byte c)) url1 in
  let (sch, url3) := split_scheme url2 in
  let (loc, url4) := split_netloc url3 in
  let (url5, frag) :=
    if has_char "#" url4 then split_once "#" url4 else (url4, "") in
  let (url6, qry) :=
    if has_char "?" url5 then split_once "?" url5 else (url5, "") in
  let (url7, prm) :=
    if mem sch uses_params && has_char ";" url6
    then splitparams url6 else (url6, "") in
  mkParseResult sch loc url7 prm qry frag.

Definition is_some {A} (o : option A) : bool :=
  match o with Some _ => true | None => false end.

Definition is_valid_claude_share_url (url : string) : bool :=
  let parsed := urlparse url in
  String.eqb (netloc parsed) "claude.ai" &&
  startswith "/share/" (path parsed) &&
  is_some (extract_share_id url).

(** ** The helpers for file names and display *)

(** The characters the first substitution removes: the angle brackets, the
    colon, the double quote, both slashes, the bar, the question mark and
    the star. *)
Definition is_invalid_filename_char (c : ascii) : bool :=
  Ascii.eqb c "<" || Ascii.eqb c ">" || Ascii.eqb c ":" || Ascii.eqb c "034"
  || Ascii.eqb c "/" || Ascii.eqb c "\" || Ascii.eqb c "|" || Ascii.eqb c "?"
  || Ascii.eqb c "*".

(** The characters the third substitution keeps: letters, digits, hyphen
    and underscore. *)
Definition is_filename_char (c : ascii) : bool :=
  is_alpha c || is_digit c || Ascii.eqb c "-" || Ascii.eqb c "_".

Definition is_hyphen (c : ascii) : bool := Ascii.eqb c "-".

Definition sanitize_filename (text : string) (max_length : Z) : string :=
  let text := filter_chars (fun c => negb (is_invalid_filename_char c)) text in
  let text := sub_runs isspace "-" (strip text) in
  let text := filter_chars is_filename_char text in
  let text := sub_runs is_hyphen "-" text in
  let text := strip_by is_hyphen text in
  let text :=
    if (max_length <? len text)%Z
    then rstrip_by is_hyphen (slice_to max_length text)
    else text in
  if is_empty text then "untitled" else text.

(** The calendar date of a [datetime]. *)
Record date : Type := mkDate { year : nat; month : nat; day : nat }.

(** A number in decimal, padded with zeros to [width] digits. *)
Fixpoint zeros (n : nat) : string :=
  match n with
  | O => ""
  | S k => String "0" (zeros k)
  end.

Definition padded (width n : nat) : string :=
  let digits := NilZero.string_of_uint (Nat.to_uint n) in
  zeros (width - String.length digits) ++ digits.

(** [date.strftime('%Y-%m-%d')], for the years from 1000 on, which every
    platform writes with four digits. *)
Definition strftime_ymd (d : date) : string :=
  padded 4 (year d) ++ "-" ++ padded 2 (month d) ++ "-" ++ padded 2 (day d).

(** [generate_cache_dir_name]; [now] is [datetime.now()], and [share_id] may
    be [None]. *)
Definition generate_cache_dir_name (now : date) (title : string)
           (share_id : option string) (d : option date) : string :=
  let d := match d with Some d => d | None => now end in
  let date_str := strftime_ymd d in
  let sanitized_title := sanitize_filename title 30 in
  let short_id :=
    match share_id with
    | Some (String c r) => slice_to 8 (String c r)
    | _ => "unknown"
    end in
  date_str ++ "_" ++ sanitized_title ++ "_" ++ short_id.

(** [truncate_text] *)
Definition truncate_text (text : string) (max_length : Z) (suffix : string)
  : string :=
  if (len text <=? max_length)%Z then text
  else slice_to (max_length - len suffix) text ++ suffix.

End Utils.

(* ================================================================== *)
(** * The BeautifulSoup tree *)
(* ================================================================== *)

Module Bs4.

(** A [NavigableString] or a [Tag]. The [class] attribute is the list of its
    tokens, as the parser stores it; the other attributes are single strings.
    [get('class', [])] of a tag without the attribute is the empty list.
    Comments and the strings of [script] and [style], which [get_text] leaves
    out, are not part of the tree. *)
Inductive node : Type :=
| Text (s : string)
| Elem (name : string) (cls : list string) (attrs : list (string * string))
       (children : list node).

(** The [BeautifulSoup] object over the top-level nodes. *)
Definition document (top : list node) : node := Elem "[document]" [] [] top.

Definition children (n : node) : list node :=
  match n with
  | Text _ => []
  | Elem _ _ _ ch => ch
  end.

Definition classes (n : node) : list string :=
  match n with
  | Text _ => []
  | Elem _ c _ _ => c
  end.

Fixpoint assoc (k : string) (l : list (string * string)) : option string :=
  match l with
  | [] => None
  | (k', v) :: r => if String.eqb k k' then Some v else assoc k r
  end.

(** [tag.get(k)] for an attribute other than [class] *)
Definition get (k : string) (n : node) : option string :=
  match n with
  | Text _ => None
  | Elem _ _ a _ => assoc k a
  end.

Definition is_tag (n : node) : bool :=
  match n with
  | Text _ => false
  | Elem _ _ _ _ => true
  end.

(** A tag called [t]; the parser stores names in lower case. *)
Definition named (t : string) (n : node) : bool :=
  match n with
  | Text _ => false
  | Elem name _ _ _ => String.eqb name t
  end.

Definition named_any (ts : list string) (n : node) : bool :=
  existsb (fun t => named t n) ts.

(** The filter [attrs={k: v}] *)
Definition has_attr (k v : string) (n : node) : bool :=
  match get k n with
  | Some v' => String.eqb v' v
  | None => false
  end.

(** The filter [class_=c] for a single token [c] *)
Definition has_class (c : string) (n : node) : bool := mem c (classes n).

(** [' '.join(tag.get('class', []))] *)
Definition class_str (n : node) : string := join " " (classes n).

(** [hasattr(x, 'name')]: a [Tag] has a name and [NavigableString] declares
    [name] as a property, so every node of the tree answers yes. *)
Definition has_name (n : node) : bool :=
  match n with
  | Text _ => true
  | Elem _ _ _ _ => true
  end.

(** [get_text()]: the strings below the node, in document order. *)
Fixpoint get_text (n : node) : string :=
  match n with
  | Text s => s
  | Elem _ _ _ ch =>
      (fix go (l : list node) : string :=
         match l with
         | [] => ""
         | c :: r => get_text c ++ go r
         end) ch
  end.

(** [get_text(strip=True)]: each string stripped, the empty ones left out. *)
Fixpoint get_text_strip (n : node) : string :=
  match n with
  | Text s => strip s
  | Elem _ _ _ ch =>
      (fix go (l : list node) : string :=
         match l with
         | [] => ""
         | c :: r => get_text_strip c ++ go r
         end) ch
  end.

(** [tag.string]: the one string a chain of only children leads to. *)
Fixpoint dot_string (n : node) : option string :=
  match n with
  | Text s => Some s
  | Elem _ _ _ [c] => dot_string c
  | Elem _ _ _ _ => None
  end.

(** ** Positions *)

(** The child indices from a node down to one of its descendants. *)
Definition path := list nat.

(** A node together with where it sits. *)
Definition located : Type := path * node.

Fixpoint subtree (n : node) (p : path) : option node :=
  match p with
  | [] => Some n
  | i :: q =>
      match nth_error (children n) i with
      | Some c => subtree c q
      | None => None
      end
  end.

(** [.descendants]: every node below [n], in document order, [p] being the
    position of [n]. *)
Fixpoint descendants (p : path) (n : node) : list located :=
  match n with
  | Text _ => []
  | Elem _ _ _ ch =>
      (fix go (i : nat) (l : list node) : list located :=
         match l with
         | [] => []
         | c :: r =>
             ((p ++ [i])%list, c) :: (descendants (p ++ [i])%list c ++ go (S i) r)%list
         end) 0 ch
  end.

(** [find_all] with a filter on tags *)
Definition find_all (f : node -> bool) (t : located) : list located :=
  filter (fun d => is_tag (snd d) && f (snd d)) (descendants (fst t) (snd t)).

(** [find] with a filter on tags *)
Definition find (f : node -> bool) (t : located) : option located :=
  hd_error (find_all f t).

(** The same searches from a node whose position is of no interest. *)
Definition find_all_in (f : node -> bool) (n : node) : list node :=
  map snd (find_all f ([], n)).

Definition find_in (f : node -> bool) (n : node) : option node :=
  hd_error (find_all_in f n).

(** [.parent] of the node at [p] in the document [root]; the
    [BeautifulSoup] object has none. *)
Definition parent (root : node) (p : path) : option located :=
  match p with
  | [] => None
  | _ :: _ =>
      match subtree root (removelast p) with
      | Some n => Some (removelast p, n)
      | None => None
      end
  end.

(** [.previous_siblings] of the node at [p] *)
Definition previous_siblings (root : node) (p : path) : list node :=
  match parent root p with
  | Some (_, par) => rev (firstn (last p 0) (children par))
  | None => []
  end.

(** ** CSS selectors, as far as the parser uses them *)

Inductive selector : Type :=
| SelTag (t : string)
| SelClass (c : string)
| SelId (i : string)
| SelAttr (k v : string).

Definition matches (s : selector) (n : node) : bool :=
  match s with
  | SelTag t => named t n
  | SelClass c => has_class c n
  | SelId i => has_attr "id" i n
  | SelAttr k v => has_attr k v n
  end.

Definition select_one (s : selector) (t : located) : option located :=
  find (matches s) t.

End Bs4.

Import Bs4.

(* ================================================================== *)
(** * Pygments, as the parser calls it *)
(* ================================================================== *)

Module Pygments.

(** [available]: the import succeeds. [get_lexer_by_name]: [true] when a
    lexer is returned, [false] for [ClassNotFound]. [guess_lexer]: the
    [aliases] of the guessed lexer, [None] for [ClassNotFound]. *)
Record env : Type := mkEnv {
  available : bool;
  get_lexer_by_name : string -> bool;
  guess_lexer : string -> option (list string)
}.

End Pygments.

(* ================================================================== *)
(** * parser.py: [ConversationParser] *)
(* ================================================================== *)

Module Parser.

Inductive Role : Type := human | assistant.

Record Message : Type := mkMessage {
  role : Role;
  content : string;
  index : nat;
  timestamp : option string
}.

Record Metadata : Type := mkMetadata {
  share_id : option string;
  title : string;
  url : string;
  date : option string;
  message_count : nat;
  parsed_at : string
}.

(** The dictionary [parse_html] returns; [metadata = None] is [{}]. *)
Record Result : Type := mkResult {
  success : bool;
  metadata : option Metadata;
  messages : list Message;
  error : option string
}.

Record datetime : Type := mkDatetime { isoformat : string }.

(** What [BeautifulSoup(html_content, 'html.parser')] leaves the parser
    with: the tree, or the exception it raised. *)
Inductive soup_outcome : Type :=
| Parsed (soup : node)
| Raised (e : string).

(** The tree of the empty markup [""]: a document without nodes. *)
Definition empty_html : soup_outcome := Parsed (document []).

(** ** Title and date *)

Definition title_selectors : list selector :=
  [SelClass "truncate"; SelTag "title"; SelTag "h1";
   SelAttr "data-testid" "chat-title"; SelClass "chat-title";
   SelClass "conversation-title"].

(** [\s*\|\s*Claude.*$] tried at the start of [s]; when it matches, what of
    [s] remains behind the match. Neither [|] nor [C] is white space, so each
    [\s*] can only take the whole run; [.] stops at a line feed and [$]
    holds at the end of the text or before a line feed that ends it. *)
Definition match_claude_suffix_at (s : string) : option string :=
  match strip_prefix "|" (drop_while isspace s) with
  | Some r1 =>
      match strip_prefix "Claude" (drop_while isspace r1) with
      | Some r2 =>
          let rest := snd (break (Ascii.eqb LF) r2) in
          if is_empty rest || String.eqb rest nl then Some rest else None
      | None => None
      end
  | None => None
  end.

(** [re.sub(r'\s*\|\s*Claude.*$', '', s)]: the leftmost match is cut out;
    behind it at most a line feed is left, where the pattern cannot match
    again. *)
Fixpoint sub_claude_suffix (s : string) : string :=
  match match_claude_suffix_at s with
  | Some rest => rest
  | None =>
      match s with
      | "" => ""
      | String c r => String c (sub_claude_suffix r)
      end
  end.

(** [re.sub(r'\s+', ' ', s)]; [in_run] says the previous character was white
    space already replaced. *)
Fixpoint sub_spaces_from (in_run : bool) (s : string) : string :=
  match s with
  | "" => ""
  | String c r =>
      if isspace c
      then if in_run then sub_spaces_from true r
           else String " " (sub_spaces_from true r)
      else String c (sub_spaces_from false r)
  end.

Definition sub_spaces (s : string) : string := sub_spaces_from false s.

(** The clean-up of a candidate's text. *)
Definition clean_title (text : string) : string :=
  sub_spaces (sub_claude_suffix (strip text)).

(** The loop of [_extract_title] over the selectors still to try. *)
Fixpoint title_from (soup : node) (sels : list selector) : string :=
  match sels with
  | [] => "Untitled Conversation"
  | sel :: rest =>
      match select_one sel ([], soup) with
      | Some (_, element) =>
          if negb (is_empty (strip (get_text element)))
          then let title := clean_title (get_text element) in
               if negb (is_empty title) && negb (String.eqb title "Claude")
               then title
               else title_from soup rest
          else title_from soup rest
      | None => title_from soup rest
      end
  end.

Definition _extract_title (soup : node) : string :=
  title_from soup title_selectors.

Definition _extract_date (soup : node) : option datetime := None.

(** ** Locating the turns *)

Definition conversation_selectors : list selector :=
  [SelTag "main"; SelAttr "role" "main"; SelClass "conversation";
   SelClass "chat-container"; SelId "chat"; SelClass "messages-container"].

(** The first selector that selects something, else the whole document. *)
Fixpoint first_selected (soup : node) (sels : list selector) : located :=
  match sels with
  | [] => ([], soup)
  | sel :: rest =>
      match select_one sel ([], soup) with
      | Some c => c
      | None => first_selected soup rest
      end
  end.

(** The class test of the styled container of a user message. *)
Definition is_styled (n : node) : bool :=
  contains "rounded-xl" (class_str n) && contains "bg-bg-300" (class_str n).

(** The [for _ in range(10)] walk up from a user message at [p]. *)
Fixpoint styled_ancestor (root : node) (p : path) (fuel : nat)
  : option located :=
  match fuel with
  | O => None
  | S k =>
      match parent root p with
      | Some (q, par) =>
          if is_styled par then Some (q, par) else styled_ancestor root q k
      | None => None
      end
  end.

(** [_get_simple_position], on the position [rev rp]: at every level the
    preceding siblings are counted, and every step up to a parent adds
    1000. *)
Fixpoint position_from (root : node) (rp : list nat) : nat :=
  List.length (filter has_name (previous_siblings root (rev rp))) +
  match rp with
  | [] => 0
  | _ :: rp' => 1000 + position_from root rp'
  end.

Definition _get_simple_position (root : node) (p : path) : nat :=
  position_from root (rev p).

(** [list.sort(key=...)]: stable, ascending. *)
Fixpoint insert_by {A : Type} (key : A -> nat) (x : A) (l : list A) : list A :=
  match l with
  | [] => [x]
  | y :: r => if Nat.leb (key x) (key y) then x :: l else y :: insert_by key x r
  end.

Definition sort_by {A : Type} (key : A -> nat) (l : list A) : list A :=
  fold_right (insert_by key) [] l.

Inductive Kind : Type := user | claude.

Definition _find_message_turns (root : node) (container : located)
  : list located :=
  let user_containers :=
    flat_map
      (fun user_msg =>
         match styled_ancestor root (fst user_msg) 10 with
         | Some c => [c]
         | None => []
         end)
      (find_all (has_attr "data-testid" "user-message") container) in
  let claude_containers :=
    find_all (fun n => named "div" n && has_attr "data-is-streaming" "false" n)
             container in
  let all_containers :=
    (map (fun d => (user, d, _get_simple_position root (fst d))) user_containers
     ++ map (fun d => (claude, d, _get_simple_position root (fst d)))
            claude_containers)%list in
  map (fun x => snd (fst x)) (sort_by (fun x => snd x) all_containers).

(** ** The fallback search (defined by the parser, called from nowhere) *)

Definition ui_indicators : list string :=
  ["button"; "nav"; "header"; "footer"; "sidebar"; "menu"; "toolbar";
   "tooltip"; "modal"; "popup"; "loading"].

Definition _is_ui_element (element : node) : bool :=
  let class_s := lower (class_str element) in
  let id_s := lower (match get "id" element with Some i => i | None => "" end) in
  existsb (fun indicator => contains indicator class_s || contains indicator id_s)
          ui_indicators
  || Utils.is_some
       (find_in (named_any ["input"; "button"; "select"; "textarea"]) element).

Definition main_selectors : list selector :=
  [SelTag "main"; SelClass "main-content"; SelId "main";
   SelClass "chat-container"; SelClass "conversation"].

Definition _find_alternating_content (soup : node) : list located :=
  let main_element := first_selected soup main_selectors in
  filter
    (fun d => Nat.ltb 20 (String.length (strip (get_text (snd d))))
              && negb (_is_ui_element (snd d)))
    (find_all (named "div") main_element).

(** ** Rendering *)

Section Rendering.

Variable pyg : Pygments.env.

Definition fence_mark : string := "```".

(** [f"```{language}\n{code_content}\n```"] *)
Definition fenced (language code_content : string) : string :=
  fence_mark ++ language ++ nl ++ code_content ++ nl ++ fence_mark.

Definition language_mappings : list (string * string) :=
  [("javascript", "js"); ("typescript", "ts"); ("shell", "bash");
   ("yaml", "yml")].

Definition _apply_pygments_highlighting (code_content language : string)
  : string :=
  if Pygments.available pyg then
    let lexer :=
      if is_empty language then false
      else Pygments.get_lexer_by_name pyg language
           || Pygments.get_lexer_by_name pyg
                (match assoc (lower language) language_mappings with
                 | Some mapped_lang => mapped_lang
                 | None => language
                 end) in
    let language :=
      if lexer then language
      else match Pygments.guess_lexer pyg code_content with
           | Some (alias :: _) => alias
           | Some [] => "text"
           | None => "text"
           end in
    fenced language code_content
  else fenced language code_content.

Fixpoint first_some {A B : Type} (f : A -> option B) (l : list A) : option B :=
  match l with
  | [] => None
  | x :: r =>
      match f x with
      | Some y => Some y
      | None => first_some f r
      end
  end.

Definition known_languages : list string :=
  ["python"; "javascript"; "java"; "cpp"; "csharp"; "go"; "rust";
   "typescript"].

(** One turn of the loop over the code element's own class tokens. *)
Definition class_language (c : string) : option string :=
  if startswith "language-" c then Some (replace "language-" "" c)
  else if startswith "lang-" c then Some (replace "lang-" "" c)
  else if mem c known_languages then Some c
  else None.

(** One turn of the loop over the parent's class tokens. *)
Definition parent_class_language (c : string) : option string :=
  if startswith "language-" c then Some (replace "language-" "" c) else None.

(** The content patterns, tried when the text is not empty. *)
Definition content_language (content : string) : string :=
  if is_empty content then ""
  else
    let content_lower := lower content in
    if existsb (fun pattern => contains pattern content_lower)
               ["def "; "import "; "python"]
    then "python"
    else if existsb (fun pattern => contains pattern content_lower)
                    ["function"; "const "; "let "; "=>"]
    then "javascript"
    else if contains "SELECT" (upper content) && contains "FROM" (upper content)
    then "sql"
    else if existsb (fun pattern => contains pattern content)
                    ["#include"; "std::"; "int main"]
    then "cpp"
    else "".

(** [parent] is [code_element.parent]. *)
Definition _detect_code_language (parent : option node) (code_element : node)
  : string :=
  match first_some class_language (classes code_element) with
  | Some l => l
  | None =>
      match
        match parent with
        | Some p => first_some parent_class_language (classes p)
        | None => None
        end
      with
      | Some l => l
      | None => content_language (get_text code_element)
      end
  end.

(** The copy of a code element after every [span] found below it was
    replaced by its text. *)
Fixpoint unwrap_spans (n : node) : node :=
  match n with
  | Text s => Text s
  | Elem name cls attrs ch =>
      Elem name cls attrs
           (map (fun c => if named "span" c then Text (get_text c)
                          else unwrap_spans c) ch)
  end.

Definition _extract_clean_code_content (code_elem : node) : string :=
  join nl (map rstrip (split LF (get_text (unwrap_spans code_elem)))).

(** The [pre] branch of [_format_html_element]. *)
Definition format_pre (element : node) : string :=
  match find (named "code") ([], element) with
  | Some (p, code_element) =>
      _apply_pygments_highlighting
        (_extract_clean_code_content code_element)
        (_detect_code_language
           (option_map snd (Bs4.parent element p)) code_element)
  | None => fence_mark ++ nl ++ get_text element ++ nl ++ fence_mark
  end.

(** The loop of [_format_table]; [rows] is kept in reverse. *)
Fixpoint table_rows (trs : list node) (rows : list string) : list string :=
  match trs with
  | [] => rev rows
  | row :: rest =>
      let cells :=
        map (fun cell => strip (get_text cell))
            (find_all_in (named_any ["td"; "th"]) row) in
      match cells with
      | [] => table_rows rest rows
      | _ :: _ =>
          let rows1 := ("| " ++ join " | " cells ++ " |") :: rows in
          if Utils.is_some (find_in (named "th") row)
             && Nat.eqb (List.length rows1) 1
          then table_rows rest
                 (("| " ++ join " | " (map (fun _ => "---") cells) ++ " |")
                    :: rows1)
          else table_rows rest rows1
      end
  end.

Definition _format_table (table : node) : string :=
  join nl (table_rows (find_all_in (named "tr") table) []).

(** [int(tag_name[1])] for the six heading tags *)
Definition heading_level (tag_name : string) : option nat :=
  if mem tag_name ["h1"; "h2"; "h3"; "h4"; "h5"; "h6"]
  then match tag_name with
       | String _ (String d _) => Some (nat_of_ascii d - 48)
       | _ => None
       end
  else None.

Fixpoint repeat_string (s : string) (n : nat) : string :=
  match n with
  | O => ""
  | S k => s ++ repeat_string s k
  end.

Definition str_of_nat (n : nat) : string :=
  NilZero.string_of_uint (Nat.to_uint n).

(** [enumerate] from [i] *)
Fixpoint enumerate_from {A : Type} (i : nat) (l : list A) : list (nat * A) :=
  match l with
  | [] => []
  | x :: r => (i, x) :: enumerate_from (S i) r
  end.

Definition text_of (element : node) : string := strip (get_text element).

(** [_format_html_element]; its one recursive call, from the [div] branch,
    is on a [pre] and lands in [format_pre]. *)
Definition _format_html_element (element : node) : string :=
  match element with
  | Text _ => ""
  | Elem name _ _ _ =>
      if is_empty name then ""
      else
        let tag_name := lower name in
        if String.eqb tag_name "p" then text_of element
        else match heading_level tag_name with
        | Some level => repeat_string "#" level ++ " " ++ text_of element
        | None =>
        if String.eqb tag_name "strong" || String.eqb tag_name "b"
        then "**" ++ text_of element ++ "**"
        else if String.eqb tag_name "em" || String.eqb tag_name "i"
        then "*" ++ text_of element ++ "*"
        else if String.eqb tag_name "code"
        then "`" ++ get_text element ++ "`"
        else if String.eqb tag_name "pre" then format_pre element
        else if String.eqb tag_name "a"
        then match get "href" element with
             | Some (String c h) =>
                 "[" ++ text_of element ++ "](" ++ String c h ++ ")"
             | _ => text_of element
             end
        else if String.eqb tag_name "ul"
        then join nl (map (fun li => "- " ++ text_of li)
                          (find_all_in (named "li") element))
        else if String.eqb tag_name "ol"
        then join nl (map (fun x => str_of_nat (fst x + 1) ++ ". "
                                    ++ text_of (snd x))
                          (enumerate_from 0 (find_all_in (named "li") element)))
        else if String.eqb tag_name "blockquote"
        then join nl (map (fun line => "> " ++ line)
                          (split LF (text_of element)))
        else if String.eqb tag_name "table" then _format_table element
        else if String.eqb tag_name "div"
        then match find_in (fun n => named "pre" n
                                     && has_class "code-block__code" n) element with
             | Some code_pre => format_pre code_pre
             | None => text_of element
             end
        else text_of element
        end
  end.

(** The loop of [_extract_structured_content] over the children. *)
Fixpoint structured_parts (l : list node) : list string :=
  match l with
  | [] => []
  | child :: r =>
      if has_name child
      then let formatted_content := _format_html_element child in
           if negb (is_empty formatted_content)
              && negb (is_empty (strip formatted_content))
           then strip formatted_content :: structured_parts r
           else structured_parts r
      else structured_parts r
  end.

Definition _extract_structured_content (container : node) : string :=
  join (nl ++ nl) (structured_parts (children container)).

(** The first child carrying the class [font-claude-response]. *)
Definition claude_response_div (element : node) : option node :=
  List.find (has_class "font-claude-response") (children element).

(** The class test of the thinking container. *)
Definition is_thinking_div (d : node) : bool :=
  contains "grid-cols-1" (class_str d) && contains "p-3" (class_str d)
  && contains "pt-0" (class_str d) && contains "pr-8" (class_str d).

(** The class test of the main response container. *)
Definition is_main_div (d : node) : bool :=
  contains "grid-cols-1" (class_str d) && contains "gap-2.5" (class_str d)
  && negb (contains "p-3" (class_str d))
  && negb (contains "pt-0" (class_str d))
  && negb (contains "pr-8" (class_str d)).

Definition _extract_thinking_process (element : node) : string :=
  match claude_response_div element with
  | None => ""
  | Some response =>
      match List.find is_thinking_div (find_all_in (named "div") response) with
      | Some d => _extract_structured_content d
      | None => ""
      end
  end.

Definition _extract_claude_main_response (element : node) : string :=
  match claude_response_div element with
  | None => ""
  | Some response =>
      match List.find is_main_div (find_all_in (named "div") response) with
      | Some d => _extract_structured_content d
      | None => ""
      end
  end.

Definition thinking_label : string := "**Thinking Process:**" ++ nl ++ nl.

Definition _extract_message_content (element : node) : string :=
  match find_in (has_attr "data-testid" "user-message") element with
  | Some user_message_element => get_text_strip user_message_element
  | None =>
      let thinking_content := _extract_thinking_process element in
      let main_content := _extract_claude_main_response element in
      let content_parts :=
        List.app
          (if is_empty thinking_content then []
           else [thinking_label ++ thinking_content])
          (if is_empty main_content then [] else [main_content]) in
      strip (join (nl ++ nl) content_parts)
  end.

Definition _determine_message_role (element : node) (index : nat) : Role :=
  if Utils.is_some (find_in (has_attr "data-testid" "user-message") element)
  then human
  else if Utils.is_some
            (find_in (fun n => named "div" n
                               && match dot_string n with
                                  | Some s => String.eqb s "D"
                                  | None => false
                                  end) element)
  then human
  else if existsb (has_class "font-claude-response") (children element)
  then assistant
  else if Utils.is_some (find_in (has_attr "data-is-streaming" "false") element)
  then assistant
  else
    let class_s := lower (class_str element) in
    if contains "user-message" class_s || contains "human-message" class_s
    then human
    else if contains "claude-message" class_s
            || contains "assistant-message" class_s
    then assistant
    else
      let text := lower (get_text element) in
      if existsb (fun p => startswith p text) ["human:"; "user:"; "me:"]
      then human
      else if existsb (fun p => startswith p text)
                      ["claude:"; "assistant:"; "ai:"]
      then assistant
      else if Nat.eqb (index mod 2) 0 then human else assistant.

(** A turn container is a tag, so the guard [if not element] never fires. *)
Definition _parse_message_element (element : node) (index : nat)
  : option Message :=
  let role := _determine_message_role element index in
  let content := _extract_message_content element in
  if is_empty (strip content) then None
  else Some (mkMessage role content index None).

(** The loop [for i, element in enumerate(message_elements)], from [i]. *)
Fixpoint parse_turns (i : nat) (message_elements : list node)
  : list Message :=
  match message_elements with
  | [] => []
  | element :: rest =>
      match _parse_message_element element i with
      | Some message =>
          if negb (is_empty (strip (content message)))
          then message :: parse_turns (S i) rest
          else parse_turns (S i) rest
      | None => parse_turns (S i) rest
      end
  end.

(** The turn containers of a document, in the order they are parsed. *)
Definition message_elements (soup : node) : list node :=
  map snd
      (_find_message_turns soup (first_selected soup conversation_selectors)).

Definition _extract_messages (soup : node) : list Message :=
  parse_turns 0 (message_elements soup).

(** [parse_html]; [now] is [datetime.now().isoformat()]. *)
Definition parse_html (now : string) (html_content : soup_outcome)
           (url : string) : Result :=
  match html_content with
  | Parsed soup =>
      let share_id := Utils.extract_share_id url in
      let title := _extract_title soup in
      let conversation_date := _extract_date soup in
      let messages := _extract_messages soup in
      mkResult true
               (Some (mkMetadata share_id title url
                                 (option_map isoformat conversation_date)
                                 (List.length messages) now))
               messages None
  | Raised e => mkResult false None [] (Some ("Parsing error: " ++ e))
  end.

End Rendering.

(** ** Search results and the markdown document *)

(** [_clean_search_results] *)
Definition _clean_search_results (text : string) : string :=
  join nl (map strip
               (filter (fun line => negb (is_empty (strip line)))
                       (split LF text))).

Section Markdown.

(** The date line of the document: [format_date s] is
    [datetime.fromisoformat(s.replace('Z', '+00:00'))] written with
    [strftime('%Y-%m-%d %H:%M:%S UTC')], and [None] when that raises. *)
Variable format_date : string -> option string.

(** [str(x)] for a value that is a string or [None] *)
Definition str_of_optional (o : option string) : string :=
  match o with
  | Some s => s
  | None => "None"
  end.

(** The four lines of one message. *)
Definition message_lines (message : Message) : list string :=
  [ "# " ++ match role message with human => "Human" | assistant => "Claude" end;
    ""; content message; "" ].

(** [generate_markdown]; a [metadata] of [None] is the empty dictionary,
    for which the [.get] defaults apply. *)
Definition generate_markdown (parsed_data : Result) : string :=
  if negb (success parsed_data)
  then "# Error" ++ nl ++ nl ++ str_of_optional (error parsed_data)
  else
    let md := metadata parsed_data in
    let msgs := messages parsed_data in
    let title_line :=
      "# " ++ match md with
              | Some m => title m
              | None => "Untitled Conversation"
              end in
    let url_line :=
      "- **URL**: " ++ match md with Some m => url m | None => "Unknown" end in
    let id_line :=
      "- **Share ID**: "
      ++ match md with
         | Some m => str_of_optional (share_id m)
         | None => "Unknown"
         end in
    let date_lines :=
      match md with
      | Some m =>
          match date m with
          | Some (String c r) =>
              [ "- **Date**: "
                ++ match format_date (String c r) with
                   | Some formatted_date => formatted_date
                   | None => String c r
                   end ]
          | _ => []
          end
      | None => []
      end in
    let parsed_line :=
      "- **Parsed**: "
      ++ match md with Some m => parsed_at m | None => "Unknown" end in
    join nl
         (List.app
            [title_line; ""; "## Conversation Details"; ""; url_line; id_line]
            (List.app date_lines
               (List.app
                  [ "- **Messages**: " ++ str_of_nat (List.length msgs);
                    parsed_line; ""; "## Conversation"; "" ]
                  (flat_map message_lines msgs)))).

End Markdown.

End Parser.

Import Parser.

(* ================================================================== *)
(** * The specification's rules for the language of a code block *)
(* ================================================================== *)

Module LanguageRules.

(** Rule (a): a class token of the code element that names a language, by
    the prefix [language-] or [lang-] or by being a known language. *)
Definition is_language_token (c : string) : bool :=
  startswith "language-" c || startswith "lang-" c || mem c known_languages.

Definition token_language (c : string) : string :=
  if startswith "language-" c then replace "language-" "" c
  else if startswith "lang-" c then replace "lang-" "" c
  else c.

Definition by_own_class (code_element : node) : option string :=
  option_map token_language
             (List.find is_language_token (classes code_element)).

(** Rule (b): the language class of the parent element. *)
Definition by_parent_class (parent : option node) : option string :=
  match parent with
  | Some p =>
      option_map (replace "language-" "")
                 (List.find (startswith "language-") (classes p))
  | None => None
  end.

Definition mentions (patterns : list string) (text : string) : bool :=
  existsb (fun pattern => contains pattern text) patterns.

(** Rule (c): key words of the content, tried in the order python,
    javascript, sql, cpp. *)
Definition by_content (text : string) : option string :=
  if is_empty text then None
  else if mentions ["def "; "import "; "python"] (lower text)
  then Some "python"
  else if mentions ["function"; "const "; "let "; "=>"] (lower text)
  then Some "javascript"
  else if contains "SELECT" (upper text) && contains "FROM" (upper text)
  then Some "sql"
  else if mentions ["#include"; "std::"; "int main"] text
  then Some "cpp"
  else None.

(** The rules in their order; the first that answers wins, and rule (d) is
    the empty string. *)
Definition language_by_priority (parent : option node) (code_element : node)
  : string :=
  match by_own_class code_element with
  | Some l => l
  | None =>
      match by_parent_class parent with
      | Some l => l
      | None =>
          match by_content (get_text code_element) with
          | Some l => l
          | None => ""
          end
      end
  end.

(** Whether Pygments has a lexer for [language], by its name or by the
    parser's table of other names. *)
Definition lexer_known (pyg : Pygments.env) (language : string) : bool :=
  negb (is_empty language)
  && (Pygments.get_lexer_by_name pyg language
      || Pygments.get_lexer_by_name pyg
           (match assoc (lower language) language_mappings with
            | Some other => other
            | None => language
            end)).

(** The tag written behind the opening fence. *)
Definition rendered_tag (pyg : Pygments.env) (code_content language : string)
  : string :=
  if negb (Pygments.available pyg) then language
  else if lexer_known pyg language then language
  else match Pygments.guess_lexer pyg code_content with
       | Some (alias :: _) => alias
       | _ => "text"
       end.

End LanguageRules.

(* ================================================================== *)
(** * Sample inputs *)
(* ================================================================== *)

Module Samples.

(** Pygments not installed. *)
Definition no_pygments : Pygments.env :=
  Pygments.mkEnv false (fun _ => false) (fun _ => None).

(** Pygments installed: a few lexer names, and the plain-text lexer as the
    guess for any content. *)
Definition with_pygments : Pygments.env :=
  Pygments.mkEnv true
    (fun name => mem name ["python"; "py"; "javascript"; "js"; "sql"; "cpp";
                           "bash"; "text"])
    (fun _ => Some ["text"]).

Definition a_time : string := "2025-01-01T00:00:00".

Definition share_url : string :=
  "https://claude.ai/share/75a3648c-8bfa-4730-b3c9-57c8a964051b".

(** A share identifier in the query only; the path is [/share/]. *)
Definition id_in_query_url : string :=
  "https://claude.ai/share/?next=claude.ai/share/abc".

Definition paragraph (s : string) : node := Elem "p" [] [] [Text s].

(** The styled container around a user message. *)
Definition user_turn (inside : list node) : node :=
  Elem "div" ["rounded-xl"; "bg-bg-300"] []
       [Elem "div" [] [("data-testid", "user-message")] inside].

(** A finished response with its [font-claude-response] child. *)
Definition claude_turn (inside : list node) : node :=
  Elem "div" [] [("data-is-streaming", "false")]
       [Elem "div" ["font-claude-response"] [] inside].

Definition main_answer (inside : list node) : node :=
  Elem "div" ["grid-cols-1"; "gap-2.5"] [] inside.

Definition reasoning (inside : list node) : node :=
  Elem "div" ["grid-cols-1"; "p-3"; "pt-0"; "pr-8"] [] inside.

(** A user message without text, then a response. *)
Definition empty_then_answer : node :=
  document [user_turn []; claude_turn [main_answer [paragraph "Hello"]]].

(** A user message, then a response. *)
Definition question_answer : node :=
  document [user_turn [Text "Hi"]; claude_turn [main_answer [paragraph "Hello"]]].

(** Two labelled blocks, no marker attribute anywhere. *)
Definition labelled_blocks : node :=
  document
    [Elem "div" [] [] [Text "Human: What is the capital of France?"];
     Elem "div" [] [] [Text "Claude: The capital of France is Paris."]].

(** The user turn is the third child of the first branch, the response the
    first child of the second branch. *)
Definition two_branches : node :=
  document
    [Elem "div" [] []
          [Elem "div" [] [] []; Elem "div" [] [] []; user_turn [Text "first"]];
     Elem "div" [] [] [claude_turn [main_answer [paragraph "second"]]]].

(** A response with reasoning and answer. *)
Definition thinking_turn : node :=
  claude_turn [reasoning [paragraph "thinking"];
               main_answer [paragraph "answer"]].

(** The same, the answer container carrying the further token [p-3.5]. *)
Definition answer_with_p35 : node :=
  Elem "div" ["grid-cols-1"; "gap-2.5"; "p-3.5"] [] [paragraph "answer"].

Definition thinking_turn_p35 : node :=
  claude_turn [reasoning [paragraph "thinking"]; answer_with_p35].

(** An answer container whose tokens [p-3.5], [pt-0.5] and [pr-8.5] are none
    of the three padding tokens, alone in its turn. *)
Definition answer_with_lookalikes : node :=
  Elem "div" ["grid-cols-1"; "gap-2.5"; "p-3.5"; "pt-0.5"; "pr-8.5"] []
       [paragraph "answer"].

Definition lookalike_turn : node := claude_turn [answer_with_lookalikes].

(** A code block: a highlighted first line with trailing blanks, an empty
    line, an indented line. *)
Definition code_sample : node :=
  Elem "code" ["language-python"] []
       [Elem "span" [] [] [Text "def f():  "];
        Text (nl ++ nl ++ "    return 1  ")].

Definition pre_sample : node := Elem "pre" [] [] [code_sample].

(** A code block nothing tells the language of. *)
Definition plain_code : node := Elem "code" [] [] [Text ("alpha" ++ nl ++ "beta")].

Definition plain_pre : node := Elem "pre" [] [] [plain_code].

Definition titled : node :=
  document [Elem "title" [] [] [Text "My Chat | Claude"]].

Definition site_name_only : node :=
  document [Elem "title" [] [] [Text "Claude"]; Elem "h1" [] [] [Text "  "]].

End Samples.

(* ================================================================== *)
(** * Predicates the properties are stated with *)
(* ================================================================== *)

Module Predicates.

(** A text without white space at either end. *)
Definition trimmed (s : string) : Prop := lstrip s = s /\ rstrip s = s.

(** What one rendered line keeps of its raw line: everything but white
    space at the right end. *)
Definition right_trimmed_of (raw shown : string) : Prop :=
  exists w, raw = shown ++ w /\ all_chars isspace w = true
            /\ rstrip shown = shown.

(** A selector the loop of [_extract_title] passes over: it selects nothing,
    or an element whose text is blank or the bare site name. *)
Definition passed_over (soup : node) (sel : selector) : Prop :=
  match select_one sel ([], soup) with
  | None => True
  | Some (_, element) =>
      strip (get_text element) = "" \/ strip (get_text element) = "Claude"
  end.

(** No two neighbouring characters both satisfy [p]. *)
Fixpoint no_double (p : ascii -> bool) (s : string) : bool :=
  match s with
  | String a (String b _ as r) => negb (p a && p b) && no_double p r
  | _ => true
  end.

(** The first character does not satisfy [p]. *)
Definition head_not (p : ascii -> bool) (s : string) : bool :=
  match s with
  | String a _ => negb (p a)
  | "" => true
  end.

(** The last character does not satisfy [p]. *)
Fixpoint last_not (p : ascii -> bool) (s : string) : bool :=
  match s with
  | "" => true
  | String a "" => negb (p a)
  | String _ r => last_not p r
  end.

(** A file name as [sanitize_filename] leaves it: not empty, of letters,
    digits, hyphens and underscores, hyphens neither doubled nor at an
    end. *)
Definition clean_name (s : string) : Prop :=
  s <> ""
  /\ all_chars Utils.is_filename_char s = true
  /\ no_double Utils.is_hyphen s = true
  /\ head_not Utils.is_hyphen s = true
  /\ last_not Utils.is_hyphen s = true.

(** A text on one line, its words one space apart, nothing around it. *)
Definition single_spaced (s : string) : Prop :=
  all_chars (fun c => negb (isspace c) || Ascii.eqb c " ") s = true
  /\ no_double isspace s = true
  /\ head_not isspace s = true
  /\ last_not isspace s = true.

(** The containers [_find_message_turns] collects for the user messages
    below [container], in the order of discovery. *)
Definition user_containers (root : node) (container : located)
  : list located :=
  flat_map
    (fun user_msg =>
       match styled_ancestor root (fst user_msg) 10 with
       | Some c => [c]
       | None => []
       end)
    (find_all (has_attr "data-testid" "user-message") container).

(** The containers it collects for the responses. *)
Definition claude_containers (container : located) : list located :=
  find_all (fun n => named "div" n && has_attr "data-is-streaming" "false" n)
           container.

(** The rank of a located container. *)
Definition rank (root : node) (c : located) : nat :=
  _get_simple_position root (fst c).

(** The descendants of the nodes [l], which are the children of the node at
    [p] from the index [i] on. *)
Fixpoint below (p : path) (i : nat) (l : list node) : list located :=
  match l with
  | [] => []
  | c :: r =>
      ((p ++ [i])%list, c)
        :: (descendants (p ++ [i])%list c ++ below p (S i) r)%list
  end.

(** A text without line feed. *)
Definition one_line (s : string) : bool :=
  all_chars (fun c => negb (Ascii.eqb c LF)) s.

(** The order of the keys. *)
Definition key_le {A : Type} (key : A -> nat) (a b : A) : Prop :=
  key a <= key b.

(** The ancestors of the node at [rev rp], the nearest first, as far up as
    the positions are positions of the document. *)
Fixpoint ancestors_from (root : node) (rp : list nat) : list located :=
  match rp with
  | [] => []
  | _ :: rq =>
      match subtree root (rev rq) with
      | Some n => (rev rq, n) :: ancestors_from root rq
      | None => []
      end
  end.

Definition ancestors (root : node) (p : path) : list located :=
  ancestors_from root (rev p).

(** The first test of [_determine_message_role]: a user message below the
    element. *)
Definition holds_user_message (element : node) : bool :=
  Utils.is_some (find_in (has_attr "data-testid" "user-message") element).

(** Its second test: a [div] below the element whose string is [D]. *)
Definition holds_avatar (element : node) : bool :=
  Utils.is_some
    (find_in (fun n => named "div" n
                       && match dot_string n with
                          | Some s => String.eqb s "D"
                          | None => false
                          end) element).

(** Its third test: a child carrying the class [font-claude-response]. *)
Definition has_response_child (element : node) : bool :=
  existsb (has_class "font-claude-response") (children element).

End Predicates.

(* ================================================================== *)
(** * Induction over trees *)
(* ================================================================== *)

Section NodeInduction.

Variable P : node -> Prop.
Hypothesis on_text : forall s, P (Text s).
Hypothesis on_elem :
  forall name cls attrs ch, Forall P ch -> P (Elem name cls attrs ch).

Fixpoint node_induction (n : node) : P n :=
  match n with
  | Text s => on_text s
  | Elem name cls attrs ch =>
      on_elem name cls attrs ch
        ((fix all (l : list node) : Forall P l :=
            match l with
            | [] => Forall_nil P
            | c :: r => Forall_cons c (node_induction c) (all r)
            end) ch)
  end.

End NodeInduction.

(* ================================================================== *)
(** * Facts about the string operations *)
(* ================================================================== *)

Module StrFacts.

Import Predicates.

Lemma is_empty_true (s : string) : is_empty s = true <-> s = "".
Proof. destruct s; simpl; split; congruence. Qed.

Lemma is_empty_false (s : string) : is_empty s = false <-> s <> "".
Proof. destruct s; simpl; split; congruence. Qed.

Lemma append_empty_r (s : string) : s ++ "" = s.
Proof. induction s as [|c s IH]; simpl; [reflexivity | now rewrite IH]. Qed.

Lemma append_assoc (a b c : string) : (a ++ b) ++ c = a ++ b ++ c.
Proof. induction a as [|x a IH]; simpl; [reflexivity | now rewrite IH]. Qed.

Lemma append_eq_empty (a b : string) : a ++ b = "" -> a = "" /\ b = "".
Proof. destruct a; simpl; [auto | discriminate]. Qed.

(** ** [rstrip] *)

Lemma rstrip_idempotent (s : string) : rstrip (rstrip s) = rstrip s.
Proof.
  induction s as [|c r IH]; simpl; [reflexivity|].
  destruct (isspace c && is_empty (rstrip r)) eqn:E; simpl; [reflexivity|].
  rewrite IH, E. reflexivity.
Qed.

(** Only white space is cut, and only at the right end. *)
Lemma rstrip_cuts_trailing_space (s : string) :
  exists w, s = rstrip s ++ w /\ all_chars isspace w = true.
Proof.
  induction s as [|c r (w & Hw & Hs)]; simpl.
  - exists "". split; reflexivity.
  - destruct (isspace c) eqn:Ec; simpl.
    + destruct (is_empty (rstrip r)) eqn:Er; simpl.
      * apply is_empty_true in Er. rewrite Er in Hw. simpl in Hw.
        exists (String c w). split; [now rewrite <- Hw|].
        simpl. now rewrite Ec, Hs.
      * exists w. split; [now rewrite <- Hw | exact Hs].
    + exists w. split; [now rewrite <- Hw | exact Hs].
Qed.

(** A text that is all white space is cut to nothing. *)
Lemma rstrip_all_space (w : string) :
  all_chars isspace w = true -> rstrip w = "".
Proof.
  induction w as [|c r IH]; simpl; [reflexivity|].
  intros H. apply andb_true_iff in H as [Hc Hr].
  rewrite (IH Hr), Hc. reflexivity.
Qed.

Lemma rstrip_append_kept (a b : string) :
  rstrip b = b -> b <> "" -> rstrip (a ++ b) = a ++ b.
Proof.
  intros Hb Hne. induction a as [|c a IH]; simpl; [exact Hb|].
  rewrite IH.
  assert (is_empty (a ++ b) = false) as ->.
  { apply is_empty_false. intros H. apply append_eq_empty in H. tauto. }
  rewrite andb_false_r. reflexivity.
Qed.

(** ** [lstrip] *)

Lemma lstrip_head (c : ascii) (r : string) :
  isspace c = false -> lstrip (String c r) = String c r.
Proof. intros H. unfold lstrip. simpl. now rewrite H. Qed.

Lemma drop_while_length (p : ascii -> bool) (s : string) :
  String.length (drop_while p s) <= String.length s.
Proof.
  induction s as [|c r IH]; simpl; [lia|].
  destruct (p c); simpl; lia.
Qed.

Lemma lstrip_fixed_head (c : ascii) (r : string) :
  lstrip (String c r) = String c r -> isspace c = false.
Proof.
  unfold lstrip. simpl. destruct (isspace c); [|reflexivity].
  intros H. pose proof (drop_while_length isspace r) as L.
  rewrite H in L. simpl in L. lia.
Qed.

Lemma lstrip_result (s : string) :
  lstrip s = "" \/ exists c r, lstrip s = String c r /\ isspace c = false.
Proof.
  unfold lstrip. induction s as [|c r IH]; simpl; [now left|].
  destruct (isspace c) eqn:E; [exact IH|].
  right. exists c, r. split; [reflexivity | exact E].
Qed.

(** ** Texts without white space at either end *)
Lemma strip_of_trimmed (s : string) : trimmed s -> strip s = s.
Proof. intros [Hl Hr]. unfold strip. now rewrite Hl. Qed.

Lemma strip_trimmed (s : string) : trimmed (strip s).
Proof.
  unfold strip. split; [|apply rstrip_idempotent].
  destruct (lstrip_result s) as [-> | (c & r & -> & Hc)]; [reflexivity|].
  simpl. rewrite Hc. simpl. now apply lstrip_head.
Qed.

Lemma trimmed_append (a m b : string) :
  trimmed a -> trimmed b -> a <> "" -> b <> "" -> trimmed (a ++ m ++ b).
Proof.
  intros [Hal _] [_ Hbr] Ha Hb. split.
  - destruct a as [|c a]; [congruence|].
    simpl. apply lstrip_head. now apply lstrip_fixed_head in Hal.
  - rewrite <- append_assoc. now apply rstrip_append_kept.
Qed.

Lemma trimmed_join (sep : string) (parts : list string) :
  Forall (fun p => trimmed p /\ p <> "") parts -> trimmed (join sep parts).
Proof.
  induction 1 as [|p ps [Hp Hne] Hps IH]; [split; reflexivity|].
  destruct ps as [|q ps]; [exact Hp|].
  change (join sep (p :: q :: ps)) with (p ++ sep ++ join sep (q :: ps)).
  apply trimmed_append; [exact Hp | exact IH | exact Hne |].
  inversion Hps as [|? ? [_ Hq] _]; subst.
  destruct ps; simpl; [exact Hq|].
  destruct q; [congruence | discriminate].
Qed.

Lemma join_nonempty (sep : string) (p : string) (ps : list string) :
  p <> "" -> join sep (p :: ps) <> "".
Proof.
  intros Hp. destruct ps; simpl; [exact Hp|].
  destruct p; [congruence | discriminate].
Qed.

(** ** [split] and [join] *)

Lemma split_not_nil (sep : ascii) (s : string) : split sep s <> [].
Proof.
  destruct s as [|c r]; simpl; [discriminate|].
  destruct (Ascii.eqb c sep); [discriminate|].
  destruct (split sep r); discriminate.
Qed.

(** Joining the lines of a text gives the text back. *)
Lemma join_split (s : string) : join nl (split LF s) = s.
Proof.
  induction s as [|c r IH]; [reflexivity|].
  simpl split. destruct (Ascii.eqb c LF) eqn:E.
  - apply Ascii.eqb_eq in E. subst c.
    destruct (split LF r) as [|w ws] eqn:S; [now apply split_not_nil in S|].
    change (join nl ("" :: w :: ws)) with (nl ++ join nl (w :: ws)).
    rewrite IH. reflexivity.
  - destruct (split LF r) as [|w ws] eqn:S; [now apply split_not_nil in S|].
    destruct ws as [|w' ws].
    + simpl in *. now rewrite IH.
    + change (join nl (String c w :: w' :: ws))
        with (String c (w ++ nl ++ join nl (w' :: ws))).
      f_equal. exact IH.
Qed.

(** ** [contains] *)

Lemma startswith_refl_append (p s : string) : startswith p (p ++ s) = true.
Proof.
  induction p as [|c p IH]; simpl; [reflexivity|].
  now rewrite Ascii.eqb_refl.
Qed.

Lemma contains_here (p s : string) :
  startswith p s = true -> contains p s = true.
Proof. intros H. destruct s; simpl; rewrite H; reflexivity. Qed.

Lemma contains_skip (p a s : string) :
  contains p s = true -> contains p (a ++ s) = true.
Proof.
  intros H. induction a as [|c a IH]; simpl; [exact H|].
  rewrite IH. apply orb_true_r.
Qed.

Lemma contains_append (p a b : string) : contains p (a ++ p ++ b) = true.
Proof. apply contains_skip, contains_here, startswith_refl_append. Qed.

(** A token of a class list occurs in the joined class string. *)
Lemma contains_join (t : string) (l : list string) :
  In t l -> contains t (join " " l) = true.
Proof.
  induction l as [|x l IH]; [contradiction|].
  intros [-> | H].
  - destruct l as [|y l].
    + simpl join. rewrite <- (append_empty_r t) at 2.
      apply (contains_append t "" "").
    + change (join " " (t :: y :: l)) with ("" ++ t ++ " " ++ join " " (y :: l)).
      apply contains_append.
  - destruct l as [|y l]; [contradiction|].
    change (join " " (x :: y :: l)) with (x ++ " " ++ join " " (y :: l)).
    apply contains_skip. apply (contains_skip t " "). exact (IH H).
Qed.

End StrFacts.

(* ================================================================== *)
(** * Share URLs *)
(* ================================================================== *)

Module UrlFacts.

Import Utils.

Lemma share_id_of_share_url :
  extract_share_id Samples.share_url
  = Some "75a3648c-8bfa-4730-b3c9-57c8a964051b".
Proof. reflexivity. Qed.

Lemma share_url_is_valid :
  is_valid_claude_share_url Samples.share_url = true.
Proof. reflexivity. Qed.

(** What the validation checks, all of it. *)
Lemma valid_iff (url : string) :
  is_valid_claude_share_url url = true <->
  netloc (urlparse url) = "claude.ai"
  /\ startswith "/share/" (path (urlparse url)) = true
  /\ extract_share_id url <> None.
Proof.
  unfold is_valid_claude_share_url.
  rewrite !andb_true_iff, String.eqb_eq.
  destruct (extract_share_id url); simpl; intuition congruence.
Qed.

(** Any other host is rejected. *)
Lemma other_host_rejected (url : string) :
  netloc (urlparse url) <> "claude.ai" ->
  is_valid_claude_share_url url = false.
Proof.
  intros H. apply not_true_is_false. intros V.
  apply valid_iff in V. tauto.
Qed.

(** A path that does not begin with [/share/] is rejected. *)
Lemma missing_share_rejected (url : string) :
  startswith "/share/" (path (urlparse url)) = false ->
  is_valid_claude_share_url url = false.
Proof.
  intros H. apply not_true_is_false. intros V.
  apply valid_iff in V. destruct V as (_ & V & _). congruence.
Qed.

(** An extracted identifier is never empty and is made of [[a-f0-9-]]. *)
Lemma share_id_shape (url id : string) :
  extract_share_id url = Some id ->
  id <> "" /\ all_chars is_id_char id = true.
Proof.
  unfold extract_share_id. induction url as [|c r IH]; simpl.
  - discriminate.
  - unfold match_share_at at 1.
    destruct (strip_prefix "claude.ai/share/" (String c r)) as [rest|];
      [|exact IH].
    destruct (take_while is_id_char rest) as [|d g] eqn:T; [exact IH|].
    intros [= <-]. split; [discriminate|].
    rewrite <- T. clear. induction rest as [|x rest IHr]; simpl; [reflexivity|].
    destruct (is_id_char x) eqn:E; simpl; [now rewrite E | reflexivity].
Qed.

End UrlFacts.

(* ================================================================== *)
(** * Positions and the rank of a container *)
(* ================================================================== *)

Module RankFacts.

Lemma subtree_snoc (root : node) (q : path) (i : nat) :
  subtree root (q ++ [i])%list
  = match subtree root q with
    | Some par => nth_error (children par) i
    | None => None
    end.
Proof.
  revert root. induction q as [|j q IH]; intros root; simpl.
  - destruct (nth_error (children root) i); reflexivity.
  - destruct (nth_error (children root) j); [apply IH | reflexivity].
Qed.

Lemma parent_snoc (root : node) (q : path) (i : nat) :
  Bs4.parent root (q ++ [i])%list
  = match subtree root q with
    | Some par => Some (q, par)
    | None => None
    end.
Proof.
  unfold Bs4.parent. destruct (q ++ [i])%list eqn:E.
  - apply app_eq_nil in E. destruct E. discriminate.
  - rewrite <- E, removelast_last. reflexivity.
Qed.

Lemma filter_has_name (l : list node) : filter has_name l = l.
Proof.
  induction l as [|n l IH]; simpl; [reflexivity|].
  destruct n; simpl; now rewrite IH.
Qed.

(** A node has as many preceding siblings as its index says. *)
Lemma previous_siblings_count (root : node) (q : path) (i : nat) :
  subtree root (q ++ [i])%list <> None ->
  List.length (previous_siblings root (q ++ [i])%list) = i.
Proof.
  rewrite subtree_snoc. unfold previous_siblings. rewrite parent_snoc.
  destruct (subtree root q) as [par|]; [|congruence].
  intros H. apply nth_error_Some in H.
  rewrite last_last, length_rev, length_firstn. lia.
Qed.

(** The rank is the sum of the indices on the way down plus 1000 for every
    level: all levels weigh the same. *)
Lemma rank_formula (root : node) (p : path) :
  subtree root p <> None ->
  _get_simple_position root p = list_sum p + 1000 * List.length p.
Proof.
  unfold _get_simple_position.
  induction p as [|i q IH] using rev_ind; intros V.
  - reflexivity.
  - rewrite rev_unit. simpl position_from.
    rewrite rev_involutive, filter_has_name.
    rewrite (previous_siblings_count root q i V).
    rewrite IH.
    + rewrite list_sum_app, length_app. simpl. lia.
    + rewrite subtree_snoc in V. destruct (subtree root q); congruence.
Qed.

(** X15: Among the children of one parent the rank follows document order. *)
Lemma siblings_ranked_in_order (root : node) (q : path) (i j : nat) :
  subtree root (q ++ [i])%list <> None ->
  subtree root (q ++ [j])%list <> None ->
  i < j ->
  _get_simple_position root (q ++ [i])%list
  < _get_simple_position root (q ++ [j])%list.
Proof.
  intros Vi Vj L. rewrite !rank_formula by assumption.
  rewrite !list_sum_app, !length_app. simpl. lia.
Qed.

End RankFacts.

(* ================================================================== *)
(** * Code blocks *)
(* ================================================================== *)

Module CodeFacts.

Import LanguageRules Predicates.

#[local] Arguments startswith : simpl never.
#[local] Arguments contains : simpl never.
#[local] Arguments replace : simpl never.
#[local] Arguments mem : simpl never.

(** Replacing the [span]s below a node by their text leaves its text. *)
Lemma get_text_unwrap_spans (n : node) : get_text (unwrap_spans n) = get_text n.
Proof.
  induction n as [s | name cls attrs ch IH] using node_induction;
    [reflexivity|].
  simpl. induction IH as [|c r Hc _ IHr]; simpl; [reflexivity|].
  rewrite IHr. f_equal.
  destruct (named "span" c); [reflexivity | exact Hc].
Qed.

Lemma clean_code_lines (code_elem : node) :
  _extract_clean_code_content code_elem
  = join nl (map rstrip (split LF (get_text code_elem))).
Proof.
  unfold _extract_clean_code_content. now rewrite get_text_unwrap_spans.
Qed.

Lemma rstrip_right_trimmed (raw : string) : right_trimmed_of raw (rstrip raw).
Proof.
  destruct (StrFacts.rstrip_cuts_trailing_space raw) as (w & E & W).
  exists w. split; [exact E|]. split; [exact W|].
  apply StrFacts.rstrip_idempotent.
Qed.

Lemma lines_right_trimmed (lines : list string) :
  Forall2 right_trimmed_of lines (map rstrip lines).
Proof.
  induction lines as [|l ls IH]; simpl; constructor;
    [apply rstrip_right_trimmed | exact IH].
Qed.

(** The fence renderer changes the tag at most, never the code. *)
Lemma highlighting_is_fenced (pyg : Pygments.env)
      (code_content language : string) :
  _apply_pygments_highlighting pyg code_content language
  = fenced (rendered_tag pyg code_content language) code_content.
Proof.
  unfold _apply_pygments_highlighting, rendered_tag, lexer_known.
  destruct (Pygments.available pyg); simpl; [|reflexivity].
  destruct (is_empty language); simpl.
  - destruct (Pygments.guess_lexer pyg code_content) as [[|a l]|];
      reflexivity.
  - destruct (Pygments.get_lexer_by_name pyg language
              || Pygments.get_lexer_by_name pyg _); [reflexivity|].
    destruct (Pygments.guess_lexer pyg code_content) as [[|a l]|];
      reflexivity.
Qed.

(** The call the [div] branch makes on a [pre] is the [pre] branch. *)
Lemma format_of_pre (pyg : Pygments.env) (element : node) :
  named "pre" element = true ->
  _format_html_element pyg element = format_pre pyg element.
Proof.
  destruct element as [s | name cls attrs ch]; simpl; [discriminate|].
  intros H. apply String.eqb_eq in H. subst name. reflexivity.
Qed.

Lemma class_rule_agrees (cls : list string) :
  first_some class_language cls
  = option_map token_language (List.find is_language_token cls).
Proof.
  induction cls as [|c cls IH]; simpl; [reflexivity|].
  unfold class_language at 1, is_language_token at 1.
  destruct (startswith "language-" c) eqn:E1; simpl.
  { unfold token_language. now rewrite E1. }
  destruct (startswith "lang-" c) eqn:E2; simpl.
  { unfold token_language. now rewrite E1, E2. }
  destruct (mem c known_languages); simpl; [|exact IH].
  unfold token_language. now rewrite E1, E2.
Qed.

Lemma parent_rule_agrees (cls : list string) :
  first_some parent_class_language cls
  = option_map (replace "language-" "")
               (List.find (startswith "language-") cls).
Proof.
  induction cls as [|c cls IH]; simpl; [reflexivity|].
  unfold parent_class_language at 1.
  destruct (startswith "language-" c); simpl; [reflexivity | exact IH].
Qed.

Lemma content_rule_agrees (text : string) :
  content_language text
  = match by_content text with Some l => l | None => "" end.
Proof.
  unfold content_language, by_content, mentions.
  destruct (is_empty text); [reflexivity|].
  repeat match goal with
         | |- context [if ?b then _ else _] => destruct b; try reflexivity
         end.
Qed.

(** The detection loop is the rule list of the specification. *)
Lemma detect_follows_rules (parent : option node) (code_element : node) :
  _detect_code_language parent code_element
  = language_by_priority parent code_element.
Proof.
  unfold _detect_code_language, language_by_priority,
    by_own_class, by_parent_class.
  rewrite class_rule_agrees.
  destruct (option_map token_language _); [reflexivity|].
  destruct parent as [p|].
  - rewrite parent_rule_agrees.
    destruct (option_map _ _); [reflexivity | apply content_rule_agrees].
  - apply content_rule_agrees.
Qed.

(** Rule (c) answers with one of four languages. *)
Lemma by_content_languages (text l : string) :
  by_content text = Some l ->
  In l ["python"; "javascript"; "sql"; "cpp"].
Proof.
  unfold by_content.
  repeat match goal with
         | |- context [if ?b then _ else _] => destruct b
         end; intros [= <-] || discriminate; simpl; tauto.
Qed.

(** With Pygments installed and guessing a named lexer, no block is
    rendered with an empty tag. *)
Lemma tag_not_empty_with_pygments (pyg : Pygments.env)
      (code_content language alias : string) (others : list string) :
  Pygments.available pyg = true ->
  Pygments.guess_lexer pyg code_content = Some (alias :: others) ->
  alias <> "" ->
  rendered_tag pyg code_content language <> "".
Proof.
  intros A G N. unfold rendered_tag, lexer_known. rewrite A, G. simpl.
  destruct (is_empty language) eqn:E; simpl; [exact N|].
  destruct (_ || _); [|exact N].
  now apply StrFacts.is_empty_false.
Qed.

End CodeFacts.

(* ================================================================== *)
(** * Turns *)
(* ================================================================== *)

Module TurnFacts.

Section WithPygments.

Variable pyg : Pygments.env.

Lemma parsed_index (e : node) (i : nat) (m : Message) :
  _parse_message_element pyg e i = Some m -> index m = i.
Proof.
  unfold _parse_message_element.
  destruct (is_empty _); [discriminate|]. now intros [= <-].
Qed.

(** The second test of the loop never drops what the first let through. *)
Lemma parse_turns_step (i : nat) (e : node) (rest : list node) :
  parse_turns pyg i (e :: rest)
  = match _parse_message_element pyg e i with
    | Some m => m :: parse_turns pyg (S i) rest
    | None => parse_turns pyg (S i) rest
    end.
Proof.
  simpl. unfold _parse_message_element.
  destruct (is_empty (strip (_extract_message_content pyg e))) eqn:E;
    [reflexivity|].
  simpl. now rewrite E.
Qed.

(** Every message kept from position [i] on carries the position of its
    container, and is the parse of that container. *)
Lemma parse_turns_origin (l : list node) :
  forall i,
    Forall (fun m => i <= index m
                     /\ exists e, nth_error l (index m - i) = Some e
                                  /\ _parse_message_element pyg e (index m)
                                     = Some m)
           (parse_turns pyg i l).
Proof.
  induction l as [|e rest IH]; intros i; [constructor|].
  rewrite parse_turns_step.
  assert (Forall (fun m => i <= index m
                     /\ exists e', nth_error (e :: rest) (index m - i) = Some e'
                                   /\ _parse_message_element pyg e' (index m)
                                      = Some m)
                 (parse_turns pyg (S i) rest)) as T.
  { eapply Forall_impl; [|apply (IH (S i))].
    intros m (L & e' & N & P). split; [lia|]. exists e'. split; [|exact P].
    replace (index m - i) with (S (index m - S i)) by lia. exact N. }
  destruct (_parse_message_element pyg e i) as [m|] eqn:P; [|exact T].
  constructor; [|exact T].
  pose proof (parsed_index _ _ _ P) as I. split; [lia|].
  exists e. rewrite I, Nat.sub_diag. split; [reflexivity | exact P].
Qed.

Lemma parse_turns_increasing (l : list node) :
  forall i, StronglySorted lt (map index (parse_turns pyg i l)).
Proof.
  induction l as [|e rest IH]; intros i; [constructor|].
  rewrite parse_turns_step.
  destruct (_parse_message_element pyg e i) as [m|] eqn:P; [|apply IH].
  simpl. constructor; [apply IH|].
  apply Forall_map. eapply Forall_impl; [|apply (parse_turns_origin rest (S i))].
  intros m' (L & _). rewrite (parsed_index _ _ _ P). lia.
Qed.

Lemma parse_turns_length (l : list node) :
  forall i, List.length (parse_turns pyg i l) <= List.length l.
Proof.
  induction l as [|e rest IH]; intros i; [simpl; lia|].
  rewrite parse_turns_step. specialize (IH (S i)).
  destruct (_parse_message_element pyg e i); simpl; lia.
Qed.

(** When nothing is dropped the positions are consecutive. *)
Lemma parse_turns_nothing_dropped (l : list node) :
  forall i,
    List.length (parse_turns pyg i l) = List.length l ->
    map index (parse_turns pyg i l) = seq i (List.length l).
Proof.
  induction l as [|e rest IH]; intros i; [reflexivity|].
  rewrite parse_turns_step.
  destruct (_parse_message_element pyg e i) as [m|] eqn:P; simpl.
  - intros [= L]. rewrite (IH _ L), (parsed_index _ _ _ P). reflexivity.
  - intros L. pose proof (parse_turns_length rest (S i)). lia.
Qed.

(** X18: Without a marker attribute anywhere in the conversation container, no
    turn is found; no other search is made. *)
Lemma no_markers_no_turns (soup : node) :
  let container := first_selected soup conversation_selectors in
  find_all (has_attr "data-testid" "user-message") container = [] ->
  find_all (fun n => named "div" n && has_attr "data-is-streaming" "false" n)
           container = [] ->
  _extract_messages pyg soup = [].
Proof.
  intros container U C.
  unfold _extract_messages, message_elements, _find_message_turns.
  fold container. rewrite U, C. reflexivity.
Qed.

(** ** The content of a response *)

Lemma structured_parts_trimmed (l : list node) :
  Forall (fun p => Predicates.trimmed p /\ p <> "") (structured_parts pyg l).
Proof.
  induction l as [|c r IH]; simpl; [constructor|].
  destruct (has_name c); [|exact IH].
  destruct (negb (is_empty (_format_html_element pyg c))
            && negb (is_empty (strip (_format_html_element pyg c)))) eqn:E;
    [|exact IH].
  constructor; [|exact IH].
  split; [apply StrFacts.strip_trimmed|].
  apply andb_true_iff in E as [_ E]. apply negb_true_iff in E.
  now apply StrFacts.is_empty_false.
Qed.

Lemma structured_content_trimmed (container : node) :
  Predicates.trimmed (_extract_structured_content pyg container).
Proof.
  apply StrFacts.trimmed_join, structured_parts_trimmed.
Qed.

Lemma labelled_trimmed (t : string) :
  Predicates.trimmed t -> t <> "" -> Predicates.trimmed (thinking_label ++ t).
Proof.
  intros [_ R] N. split.
  - apply StrFacts.lstrip_head. reflexivity.
  - now apply StrFacts.rstrip_append_kept.
Qed.

End WithPygments.

(** The two class tests exclude each other. *)
Lemma main_is_not_thinking (d : node) :
  is_main_div d = true -> is_thinking_div d = false.
Proof.
  unfold is_main_div, is_thinking_div.
  destruct (contains "grid-cols-1" (class_str d)),
    (contains "gap-2.5" (class_str d)), (contains "p-3" (class_str d)),
    (contains "pt-0" (class_str d)), (contains "pr-8" (class_str d));
    simpl; congruence.
Qed.

(** The four tokens of the reasoning container pass its class test. *)
Lemma tokens_make_thinking (d : node) :
  In "grid-cols-1" (classes d) -> In "p-3" (classes d) ->
  In "pt-0" (classes d) -> In "pr-8" (classes d) ->
  is_thinking_div d = true.
Proof.
  intros A B C D. unfold is_thinking_div, class_str.
  now rewrite !StrFacts.contains_join.
Qed.

End TurnFacts.

(* ================================================================== *)
(** * Titles *)
(* ================================================================== *)

Module TitleFacts.

Import Predicates.

Lemma title_from_passed_over (soup : node) (sel : selector)
      (rest : list selector) :
  passed_over soup sel -> title_from soup (sel :: rest) = title_from soup rest.
Proof.
  unfold passed_over. cbn [title_from].
  destruct (select_one sel ([], soup)) as [[q element]|]; [|reflexivity].
  unfold clean_title. intros [H | H]; rewrite H; reflexivity.
Qed.

Lemma title_from_all_passed_over (soup : node) (pre rest : list selector) :
  Forall (passed_over soup) pre ->
  title_from soup (pre ++ rest)%list = title_from soup rest.
Proof.
  induction 1 as [|sel pre H _ IH]; [reflexivity|].
  rewrite <- app_comm_cons, title_from_passed_over by exact H. exact IH.
Qed.

(** A candidate with a usable title ends the loop. *)
Lemma title_from_usable (soup : node) (sel : selector) (rest : list selector)
      (q : path) (element : node) :
  select_one sel ([], soup) = Some (q, element) ->
  strip (get_text element) <> "" ->
  clean_title (get_text element) <> "" ->
  clean_title (get_text element) <> "Claude" ->
  title_from soup (sel :: rest) = clean_title (get_text element).
Proof.
  intros S T C N. cbn [title_from]. rewrite S.
  apply StrFacts.is_empty_false in T, C. rewrite T, C.
  apply String.eqb_neq in N. rewrite N. reflexivity.
Qed.

End TitleFacts.

(* ================================================================== *)
(** * The claims of the specification *)
(* ================================================================== *)

(** ** C1: ordinals of the returned messages *)

(** C1, as stated, fails: when the first located container renders empty
    and is dropped, the one message returned carries the ordinal 1, so the
    ordinals of a non-empty result are not [0..len-1]. *)
Lemma turn_indices_have_gap :
  let ms := _extract_messages Samples.no_pygments Samples.empty_then_answer in
  ms <> [] /\ map index ms <> seq 0 (List.length ms).
Proof. vm_compute. split; discriminate. Qed.

(** C1, amended: the ordinals of the returned messages strictly increase;
    each message carries the position of its container in the located
    sequence and is the parse of that container; and unless a container was
    dropped the ordinals are exactly [0..len-1]. *)
Theorem turn_indices_follow_container_positions
        (pyg : Pygments.env) (soup : node) :
  let ms := _extract_messages pyg soup in
  StronglySorted lt (map index ms)
  /\ Forall (fun m =>
               exists e, nth_error (message_elements soup) (index m) = Some e
                         /\ _parse_message_element pyg e (index m) = Some m)
            ms
  /\ (List.length ms < List.length (message_elements soup)
      \/ map index ms = seq 0 (List.length ms)).
Proof.
  unfold _extract_messages. cbv zeta. split; [|split].
  - apply TurnFacts.parse_turns_increasing.
  - eapply Forall_impl;
      [|apply (TurnFacts.parse_turns_origin pyg (message_elements soup) 0)].
    intros m (_ & e & N & P). exists e. rewrite Nat.sub_0_r in N. auto.
  - pose proof (TurnFacts.parse_turns_length pyg (message_elements soup) 0) as L.
    destruct (Nat.eq_dec (List.length (parse_turns pyg 0 (message_elements soup)))
                         (List.length (message_elements soup))) as [E | E];
      [right | left; lia].
    rewrite (TurnFacts.parse_turns_nothing_dropped pyg _ 0 E). now rewrite E.
Qed.

(** ** C2: labelled blocks without structural markers *)

(** C2 (code defect): on two blocks labelled [Human:] and [Claude:] and no
    marker attribute, extraction returns no turn at all, although the
    fallback search the parser defines finds both blocks: it is never
    called. *)
Theorem labelled_blocks_yield_no_turns (pyg : Pygments.env) :
  _extract_messages pyg Samples.labelled_blocks = []
  /\ map fst (_find_alternating_content Samples.labelled_blocks) = [[0]; [1]].
Proof. split; reflexivity. Qed.

(** ** C3: the empty markup *)

(** C3, as stated, fails: the empty markup is reported as a success. *)
Lemma empty_html_reported_as_success :
  success (parse_html Samples.no_pygments Samples.a_time empty_html
                      Samples.share_url) <> false.
Proof. vm_compute. discriminate. Qed.

(** C3, amended: for the empty markup and any URL [parse_html] returns a
    success without messages, with count 0, the default title and no error;
    and nothing is raised past it: an exception of the HTML parser comes back
    as a failure carrying the message. *)
Theorem parse_of_empty_html (pyg : Pygments.env) (now url : string) :
  parse_html pyg now empty_html url
  = mkResult true
             (Some (mkMetadata (Utils.extract_share_id url)
                               "Untitled Conversation" url None 0 now))
             [] None
  /\ forall e, parse_html pyg now (Raised e) url
               = mkResult false None [] (Some ("Parsing error: " ++ e)).
Proof. split; reflexivity. Qed.

(** ** C4: share URLs *)

(** C4 (code defect): a URL on [claude.ai] whose path is just [/share/],
    with nothing matching [[a-f0-9-]+] behind it, is accepted, because the
    identifier is searched in the whole URL text and found in the query. *)
Theorem share_id_outside_path_accepted :
  Utils.netloc (Utils.urlparse Samples.id_in_query_url) = "claude.ai"
  /\ Utils.path (Utils.urlparse Samples.id_in_query_url) = "/share/"
  /\ Utils.extract_share_id Samples.id_in_query_url = Some "abc"
  /\ Utils.is_valid_claude_share_url Samples.id_in_query_url = true.
Proof. repeat split; reflexivity. Qed.

(** ** C5: reasoning before the main answer *)

(** C5 (code defect): the reasoning container carries the three padding
    tokens, its sibling carries none of them, yet the sibling's further token
    [p-3.5] holds [p-3] as a part and the sibling is not rendered as the
    main answer; the content ends with the reasoning. The test is made on
    the joined class string, where the comments of the code speak of
    classes. *)
Lemma answer_with_extra_padding_token_lost :
  (In "p-3" (classes (Samples.reasoning []))
   /\ In "pt-0" (classes (Samples.reasoning []))
   /\ In "pr-8" (classes (Samples.reasoning [])))
  /\ (~ In "p-3" (classes Samples.answer_with_p35)
      /\ ~ In "pt-0" (classes Samples.answer_with_p35)
      /\ ~ In "pr-8" (classes Samples.answer_with_p35))
  /\ _extract_message_content Samples.no_pygments Samples.thinking_turn_p35
     = thinking_label ++ "thinking"
  /\ contains "answer"
       (_extract_message_content Samples.no_pygments Samples.thinking_turn_p35)
     = false.
Proof.
  split; [simpl; tauto|]. split; [|split; reflexivity].
  simpl. repeat split; intros H; repeat destruct H as [H | H];
    try discriminate H; exact H.
Qed.

(** The same defect on the other side: an answer container whose tokens
    only hold the padding tokens as parts passes the test of the reasoning
    container, and the answer is rendered under the label of the
    reasoning. *)
Lemma lookalike_tokens_taken_for_reasoning :
  (~ In "p-3" (classes Samples.answer_with_lookalikes)
   /\ ~ In "pt-0" (classes Samples.answer_with_lookalikes)
   /\ ~ In "pr-8" (classes Samples.answer_with_lookalikes))
  /\ is_thinking_div Samples.answer_with_lookalikes = true
  /\ _extract_message_content Samples.no_pygments Samples.lookalike_turn
     = thinking_label ++ "answer".
Proof.
  split; [|split; reflexivity].
  simpl. repeat split; intros H; repeat destruct H as [H | H];
    try discriminate H; exact H.
Qed.

(** Where the two class tests of the code do pick a reasoning container [r]
    and a main answer [m], each the first [div] below the
    [font-claude-response] child to pass its test, and both render to
    something, the content of a turn without user message is the label
    [**Thinking Process:**], the reasoning, a blank line and the main answer,
    in this order. *)
Theorem thinking_precedes_main_answer
        (pyg : Pygments.env) (element response r m : node) :
  find_in (has_attr "data-testid" "user-message") element = None ->
  claude_response_div element = Some response ->
  List.find is_thinking_div (find_all_in (named "div") response) = Some r ->
  List.find is_main_div (find_all_in (named "div") response) = Some m ->
  _extract_structured_content pyg r <> "" ->
  _extract_structured_content pyg m <> "" ->
  _extract_message_content pyg element
  = thinking_label ++ _extract_structured_content pyg r
    ++ nl ++ nl ++ _extract_structured_content pyg m.
Proof.
  intros U R T M Nr Nm.
  unfold _extract_message_content, _extract_thinking_process,
    _extract_claude_main_response.
  rewrite U, R, T, M.
  apply StrFacts.is_empty_false in Nr as Er, Nm as Em. rewrite Er, Em.
  cbn [List.app join].
  rewrite StrFacts.strip_of_trimmed.
  - now rewrite !StrFacts.append_assoc.
  - apply StrFacts.trimmed_append.
    + apply TurnFacts.labelled_trimmed;
        [apply TurnFacts.structured_content_trimmed | exact Nr].
    + apply TurnFacts.structured_content_trimmed.
    + discriminate.
    + exact Nm.
Qed.

Lemma thinking_precedes_main_answer_witness :
  _extract_message_content Samples.no_pygments Samples.thinking_turn
  = thinking_label ++ "thinking" ++ nl ++ nl ++ "answer".
Proof.
  apply (thinking_precedes_main_answer
           Samples.no_pygments Samples.thinking_turn
           (Elem "div" ["font-claude-response"] []
                 [Samples.reasoning [Samples.paragraph "thinking"];
                  Samples.main_answer [Samples.paragraph "answer"]])
           (Samples.reasoning [Samples.paragraph "thinking"])
           (Samples.main_answer [Samples.paragraph "answer"]));
    try reflexivity; vm_compute; discriminate.
Defined.

(** ** C6: the rank of a container *)

(** C6 (code defect): the user turn lies in the first branch below the
    document and the response in the second, yet the user turn, third among
    its siblings, is ranked 2002 and the response 2001; the sort puts the
    response first and the messages come out in the wrong order. *)
Theorem earlier_branch_ranked_later (pyg : Pygments.env) :
  _get_simple_position Samples.two_branches [0; 2] = 2002
  /\ _get_simple_position Samples.two_branches [1; 0] = 2001
  /\ map fst (_find_message_turns Samples.two_branches
                                  ([], Samples.two_branches))
     = [[1; 0]; [0; 2]]
  /\ map content (_extract_messages pyg Samples.two_branches)
     = ["second"; "first"].
Proof. repeat split; vm_compute; reflexivity. Qed.

(** ** C7: the text of a code block *)

(** C7: a [pre] with a [code] element renders as an opening fence with some
    tag, the lines of the code element's text, and a closing fence; the lines
    are as many as the raw ones, in their order, each the raw line without
    the white space at its right end. *)
Theorem code_block_round_trip
        (pyg : Pygments.env) (element code_element : node) (p : path) :
  named "pre" element = true ->
  find (named "code") ([], element) = Some (p, code_element) ->
  let raw_lines := split LF (get_text code_element) in
  exists (language : string) (shown_lines : list string),
    _format_html_element pyg element
    = fence_mark ++ language ++ nl ++ join nl shown_lines ++ nl ++ fence_mark
    /\ Forall2 Predicates.right_trimmed_of raw_lines shown_lines
    /\ join nl raw_lines = get_text code_element.
Proof.
  intros P F raw_lines.
  exists (LanguageRules.rendered_tag pyg
            (_extract_clean_code_content code_element)
            (_detect_code_language (option_map snd (Bs4.parent element p))
                                   code_element)),
         (map rstrip raw_lines).
  split; [|split].
  - rewrite (CodeFacts.format_of_pre pyg element P). unfold format_pre.
    rewrite F, CodeFacts.highlighting_is_fenced, CodeFacts.clean_code_lines.
    reflexivity.
  - apply CodeFacts.lines_right_trimmed.
  - apply StrFacts.join_split.
Qed.

Lemma code_block_round_trip_witness :
  exists (language : string) (shown_lines : list string),
    _format_html_element Samples.no_pygments Samples.pre_sample
    = fence_mark ++ language ++ nl ++ join nl shown_lines ++ nl ++ fence_mark
    /\ Forall2 Predicates.right_trimmed_of
               (split LF (get_text Samples.code_sample)) shown_lines
    /\ join nl (split LF (get_text Samples.code_sample))
       = get_text Samples.code_sample.
Proof.
  apply (code_block_round_trip Samples.no_pygments Samples.pre_sample
                               Samples.code_sample [0]); reflexivity.
Defined.

(** ** C8: the language tag of a code block *)

(** C8, as stated, fails: with Pygments installed, a block nothing tells the
    language of is not rendered with the empty tag the priority list ends
    with, but with the name of the guessed lexer. *)
Lemma empty_tag_replaced_by_guess :
  LanguageRules.language_by_priority (Some Samples.plain_pre) Samples.plain_code
  = ""
  /\ _format_html_element Samples.with_pygments Samples.plain_pre
     = fenced "text" (_extract_clean_code_content Samples.plain_code)
  /\ _format_html_element Samples.with_pygments Samples.plain_pre
     <> fenced "" (_extract_clean_code_content Samples.plain_code).
Proof. vm_compute. repeat split; discriminate. Qed.

(** C8, amended: the language handed to the fence renderer is resolved by
    the priority list (own class token, parent's language class, content key
    words, empty string); the rendered tag is that language when Pygments is
    not installed or has a lexer for it, and otherwise the first name of the
    lexer Pygments guesses from the content, or [text]. *)
Theorem rendered_language_tag
        (pyg : Pygments.env) (element code_element : node) (p : path) :
  named "pre" element = true ->
  find (named "code") ([], element) = Some (p, code_element) ->
  _format_html_element pyg element
  = fenced
      (LanguageRules.rendered_tag pyg
         (_extract_clean_code_content code_element)
         (LanguageRules.language_by_priority
            (option_map snd (Bs4.parent element p)) code_element))
      (_extract_clean_code_content code_element).
Proof.
  intros P F.
  rewrite (CodeFacts.format_of_pre pyg element P). unfold format_pre.
  rewrite F, CodeFacts.highlighting_is_fenced, CodeFacts.detect_follows_rules.
  reflexivity.
Qed.

Lemma rendered_language_tag_witness :
  _format_html_element Samples.with_pygments Samples.pre_sample
  = fenced "python" (_extract_clean_code_content Samples.code_sample).
Proof.
  apply (rendered_language_tag Samples.with_pygments Samples.pre_sample
                               Samples.code_sample [0]); reflexivity.
Defined.

(** ** C9: the title *)

(** C9: when the selectors before one are passed over and that one selects
    an element with the text [My Chat | Claude], the title is [My Chat]; when
    every selector is passed over (it selects nothing, or a blank text, or
    the bare site name), the title is [Untitled Conversation]. *)
Theorem title_extraction (soup : node) :
  (forall (pre post : list selector) (sel : selector) (q : path)
          (element : node),
      title_selectors = (pre ++ sel :: post)%list ->
      Forall (Predicates.passed_over soup) pre ->
      select_one sel ([], soup) = Some (q, element) ->
      strip (get_text element) = "My Chat | Claude" ->
      _extract_title soup = "My Chat")
  /\ (Forall (Predicates.passed_over soup) title_selectors ->
      _extract_title soup = "Untitled Conversation").
Proof.
  unfold _extract_title. split.
  - intros pre post sel q element E Pre S T. rewrite E.
    rewrite (TitleFacts.title_from_all_passed_over soup pre _ Pre).
    rewrite (TitleFacts.title_from_usable soup sel post q element S);
      unfold clean_title; rewrite T; [reflexivity | | |]; discriminate.
  - intros All.
    rewrite <- (app_nil_r title_selectors).
    now rewrite (TitleFacts.title_from_all_passed_over soup _ [] All).
Qed.

Lemma title_extraction_witness :
  _extract_title Samples.titled = "My Chat"
  /\ _extract_title Samples.site_name_only = "Untitled Conversation".
Proof.
  split.
  - apply (proj1 (title_extraction Samples.titled)
                 [SelClass "truncate"]
                 [SelTag "h1"; SelAttr "data-testid" "chat-title";
                  SelClass "chat-title"; SelClass "conversation-title"]
                 (SelTag "title") [0]
                 (Elem "title" [] [] [Text "My Chat | Claude"]));
      [reflexivity | | reflexivity | reflexivity].
    repeat constructor.
  - apply (proj2 (title_extraction Samples.site_name_only)).
    unfold title_selectors.
    repeat (constructor; [unfold Predicates.passed_over; simpl; auto|]).
    constructor.
Defined.

(** ** C10: the date *)

(** C10: whenever [parse_html] succeeds, the metadata it returns has no
    date. *)
Theorem date_is_always_none
        (pyg : Pygments.env) (now url : string) (html_content : soup_outcome) :
  success (parse_html pyg now html_content url) = true ->
  exists m, metadata (parse_html pyg now html_content url) = Some m
            /\ date m = None.
Proof.
  destruct html_content as [soup | e]; simpl; [|discriminate].
  intros _. eexists. split; reflexivity.
Qed.

Lemma date_is_always_none_witness :
  exists m,
    metadata (parse_html Samples.with_pygments Samples.a_time
                         (Parsed Samples.question_answer) Samples.share_url)
    = Some m
    /\ date m = None.
Proof.
  apply (date_is_always_none Samples.with_pygments Samples.a_time
                             Samples.share_url
                             (Parsed Samples.question_answer)).
  reflexivity.
Defined.

(* ================================================================== *)
(** * Further properties: file names, display texts, share URLs *)
(* ================================================================== *)

Module NameFacts.

Import Utils Predicates.

(** ** Characters kept by the string operations *)

Lemma all_chars_filter (p : ascii -> bool) (s : string) :
  all_chars p (filter_chars p s) = true.
Proof.
  induction s as [|c r IH]; simpl; [reflexivity|].
  destruct (p c) eqn:E; simpl; [now rewrite E | exact IH].
Qed.

Lemma all_chars_sub_runs (q p : ascii -> bool) (c : ascii) (s : string) :
  q c = true -> all_chars q s = true ->
  forall b, all_chars q (sub_runs_from p c b s) = true.
Proof.
  intros Qc. induction s as [|x r IH]; simpl; [reflexivity|].
  intros H b. apply andb_true_iff in H as [Hx Hr].
  destruct (p x); [destruct b|]; simpl; rewrite ?Qc, ?Hx; simpl; now apply IH.
Qed.

Lemma all_chars_drop_while (q p : ascii -> bool) (s : string) :
  all_chars q s = true -> all_chars q (drop_while p s) = true.
Proof.
  induction s as [|x r IH]; simpl; [reflexivity|].
  intros H. destruct (p x); [|exact H].
  apply andb_true_iff in H as [_ Hr]. now apply IH.
Qed.

Lemma all_chars_rstrip_by (q p : ascii -> bool) (s : string) :
  all_chars q s = true -> all_chars q (rstrip_by p s) = true.
Proof.
  induction s as [|x r IH]; simpl; [reflexivity|].
  intros H. apply andb_true_iff in H as [Hx Hr].
  destruct (p x && is_empty (rstrip_by p r)); simpl; [reflexivity|].
  now rewrite Hx, IH.
Qed.

Lemma all_chars_take (q : ascii -> bool) (n : nat) (s : string) :
  all_chars q s = true -> all_chars q (take n s) = true.
Proof.
  revert s. induction n as [|n IH]; intros [|x r]; simpl; try reflexivity.
  intros H. apply andb_true_iff in H as [Hx Hr]. now rewrite Hx, IH.
Qed.

Lemma all_chars_slice_to (q : ascii -> bool) (k : Z) (s : string) :
  all_chars q s = true -> all_chars q (slice_to k s) = true.
Proof.
  intros H. unfold slice_to. destruct (0 <=? k)%Z; now apply all_chars_take.
Qed.

Lemma all_chars_append (q : ascii -> bool) (a b : string) :
  all_chars q (a ++ b) = all_chars q a && all_chars q b.
Proof.
  induction a as [|x a IH]; simpl; [reflexivity|].
  now rewrite IH, andb_assoc.
Qed.

Lemma all_chars_weaken (p q : ascii -> bool) (s : string) :
  (forall c, p c = true -> q c = true) ->
  all_chars p s = true -> all_chars q s = true.
Proof.
  intros W. induction s as [|x r IH]; simpl; [reflexivity|].
  intros H. apply andb_true_iff in H as [Hx Hr]. now rewrite (W _ Hx), IH.
Qed.

(** ** Lengths *)

Lemma take_length (n : nat) (s : string) :
  String.length (take n s) = Nat.min n (String.length s).
Proof.
  revert s. induction n as [|n IH]; intros [|x r]; simpl; try reflexivity.
  now rewrite IH.
Qed.

Lemma take_is_prefix (n : nat) (s : string) : startswith (take n s) s = true.
Proof.
  revert s. induction n as [|n IH]; intros [|x r]; simpl; try reflexivity.
  now rewrite Ascii.eqb_refl, IH.
Qed.

Lemma rstrip_by_length (p : ascii -> bool) (s : string) :
  String.length (rstrip_by p s) <= String.length s.
Proof.
  induction s as [|x r IH]; simpl; [lia|].
  destruct (p x && is_empty (rstrip_by p r)); simpl; lia.
Qed.

Lemma append_length (a b : string) :
  String.length (a ++ b) = String.length a + String.length b.
Proof. induction a as [|x a IH]; simpl; [reflexivity | now rewrite IH]. Qed.

(** ** Hyphens *)

Lemma no_double_tail (p : ascii -> bool) (x : ascii) (r : string) :
  no_double p (String x r) = true -> no_double p r = true.
Proof.
  destruct r as [|y r]; [reflexivity|].
  cbn [no_double]. intros H. now apply andb_true_iff in H as [_ H].
Qed.

Lemma no_double_cons (p : ascii -> bool) (x : ascii) (r : string) :
  no_double p (String x r)
  = (negb (p x) || head_not p r) && no_double p r.
Proof.
  destruct r as [|y r]; cbn [no_double head_not].
  - now rewrite orb_true_r.
  - now rewrite negb_andb.
Qed.

(** After the substitution no two characters of the class are neighbours;
    behind a character already replaced the text does not start with one. *)
Lemma sub_runs_no_double (p : ascii -> bool) (c : ascii) (s : string) :
  p c = true ->
  forall b,
    no_double p (sub_runs_from p c b s) = true
    /\ (b = true -> head_not p (sub_runs_from p c b s) = true).
Proof.
  intros Pc. induction s as [|x r IH]; intros b; [split; reflexivity|].
  cbn [sub_runs_from]. destruct (p x) eqn:Px.
  - destruct (IH true) as [N H]. destruct b.
    + split; [exact N | intros _; now apply H].
    + split; [|discriminate].
      rewrite no_double_cons, N, H by reflexivity. now rewrite orb_true_r.
  - destruct (IH false) as [N _]. split.
    + rewrite no_double_cons, N, Px. reflexivity.
    + intros _. cbn. now rewrite Px.
Qed.

Lemma no_double_drop_while (p q : ascii -> bool) (s : string) :
  no_double p s = true -> no_double p (drop_while q s) = true.
Proof.
  induction s as [|x r IH]; [reflexivity|].
  intros H. cbn [drop_while]. destruct (q x); [|exact H].
  apply IH. now apply no_double_tail in H.
Qed.

Lemma head_not_rstrip_by (p q : ascii -> bool) (s : string) :
  head_not p s = true -> head_not p (rstrip_by q s) = true.
Proof.
  destruct s as [|x r]; [reflexivity|]. cbn [rstrip_by head_not].
  intros H. destruct (q x && is_empty (rstrip_by q r)); [reflexivity | exact H].
Qed.

Lemma no_double_rstrip_by (p q : ascii -> bool) (s : string) :
  no_double p s = true -> no_double p (rstrip_by q s) = true.
Proof.
  induction s as [|x r IH]; [reflexivity|].
  intros H. cbn [rstrip_by].
  destruct (q x && is_empty (rstrip_by q r)); [reflexivity|].
  rewrite no_double_cons in *. apply andb_true_iff in H as [H1 H2].
  rewrite (IH H2), andb_true_r.
  apply orb_true_iff in H1 as [H1 | H1]; [now rewrite H1|].
  now rewrite (head_not_rstrip_by p q r H1), orb_true_r.
Qed.

Lemma head_not_take (p : ascii -> bool) (n : nat) (s : string) :
  head_not p s = true -> head_not p (take n s) = true.
Proof. destruct n, s; simpl; auto. Qed.

Lemma no_double_take (p : ascii -> bool) (n : nat) (s : string) :
  no_double p s = true -> no_double p (take n s) = true.
Proof.
  revert s. induction n as [|n IH]; intros [|x r]; try reflexivity.
  intros H. cbn [take]. rewrite no_double_cons in *.
  apply andb_true_iff in H as [H1 H2]. rewrite (IH r H2), andb_true_r.
  apply orb_true_iff in H1 as [H1 | H1]; [now rewrite H1|].
  now rewrite (head_not_take p n r H1), orb_true_r.
Qed.

Lemma head_not_drop_while (p : ascii -> bool) (s : string) :
  head_not p (drop_while p s) = true.
Proof.
  induction s as [|x r IH]; [reflexivity|]. cbn [drop_while].
  destruct (p x) eqn:E; [exact IH | cbn; now rewrite E].
Qed.

Lemma last_not_rstrip_by (p : ascii -> bool) (s : string) :
  last_not p (rstrip_by p s) = true.
Proof.
  induction s as [|x r IH]; [reflexivity|]. cbn [rstrip_by].
  destruct (p x) eqn:Px; cbn [andb].
  - destruct (rstrip_by p r) as [|y t] eqn:E; [reflexivity|]. exact IH.
  - destruct (rstrip_by p r) as [|y t] eqn:E; cbn; [now rewrite Px | exact IH].
Qed.

End NameFacts.

Module SanitizeFacts.

Import Utils Predicates NameFacts.

Lemma filename_char_not_invalid (c : ascii) :
  is_filename_char c = true -> is_invalid_filename_char c = false.
Proof.
  destruct c as [[] [] [] [] [] [] [] []]; vm_compute; congruence.
Qed.

Lemma filename_char_not_space (c : ascii) :
  is_filename_char c = true -> isspace c = false.
Proof.
  destruct c as [[] [] [] [] [] [] [] []]; vm_compute; congruence.
Qed.

Lemma hyphen_is_filename_char (c : ascii) :
  is_hyphen c = true -> is_filename_char c = true.
Proof.
  unfold is_hyphen. intros H. apply Ascii.eqb_eq in H. now subst c.
Qed.

Lemma head_not_slice_to (p : ascii -> bool) (k : Z) (s : string) :
  head_not p s = true -> head_not p (slice_to k s) = true.
Proof.
  intros H. unfold slice_to. destruct (0 <=? k)%Z; now apply head_not_take.
Qed.

Lemma no_double_slice_to (p : ascii -> bool) (k : Z) (s : string) :
  no_double p s = true -> no_double p (slice_to k s) = true.
Proof.
  intros H. unfold slice_to. destruct (0 <=? k)%Z; now apply no_double_take.
Qed.

Lemma slice_to_length (k : Z) (s : string) :
  (0 <= k)%Z -> (len (slice_to k s) <= k)%Z.
Proof.
  intros H. unfold slice_to, len.
  destruct (0 <=? k)%Z eqn:E; [|apply Z.leb_gt in E; lia].
  rewrite take_length. lia.
Qed.

(** ** Texts the operations leave alone *)

Lemma filter_chars_all (p : ascii -> bool) (s : string) :
  all_chars p s = true -> filter_chars p s = s.
Proof.
  induction s as [|x r IH]; simpl; [reflexivity|].
  intros H. apply andb_true_iff in H as [Hx Hr]. now rewrite Hx, IH.
Qed.

Lemma drop_while_head_not (p : ascii -> bool) (s : string) :
  head_not p s = true -> drop_while p s = s.
Proof.
  destruct s as [|x r]; [reflexivity|]. cbn. intros H.
  apply negb_true_iff in H. now rewrite H.
Qed.

Lemma rstrip_by_last_not (p : ascii -> bool) (s : string) :
  last_not p s = true -> rstrip_by p s = s.
Proof.
  induction s as [|x r IH]; [reflexivity|]. cbn [last_not rstrip_by].
  destruct r as [|y t].
  - intros H. apply negb_true_iff in H. cbn. now rewrite H.
  - intros H. rewrite (IH H). cbn [is_empty]. now rewrite andb_false_r.
Qed.

Lemma rstrip_is_rstrip_by (s : string) : rstrip s = rstrip_by isspace s.
Proof. induction s as [|x r IH]; simpl; [reflexivity | now rewrite IH]. Qed.

Lemma last_not_none (p : ascii -> bool) (s : string) :
  all_chars (fun c => negb (p c)) s = true -> last_not p s = true.
Proof.
  induction s as [|x r IH]; [reflexivity|]. cbn [all_chars last_not].
  intros H. apply andb_true_iff in H as [Hx Hr].
  destruct r; [exact Hx | now apply IH].
Qed.

Lemma head_not_none (p : ascii -> bool) (s : string) :
  all_chars (fun c => negb (p c)) s = true -> head_not p s = true.
Proof.
  destruct s as [|x r]; [reflexivity|]. cbn. intros H.
  now apply andb_true_iff in H as [Hx _].
Qed.

Lemma sub_runs_none (p : ascii -> bool) (c : ascii) (s : string) :
  all_chars (fun x => negb (p x)) s = true ->
  forall b, sub_runs_from p c b s = s.
Proof.
  induction s as [|x r IH]; [reflexivity|]. cbn [all_chars sub_runs_from].
  intros H b. apply andb_true_iff in H as [Hx Hr].
  apply negb_true_iff in Hx. now rewrite Hx, IH.
Qed.

(** A text without doubled characters of the class is left alone, when the
    class holds the replacement only. *)
Lemma sub_runs_single (p : ascii -> bool) (c : ascii) (s : string) :
  (forall x, p x = true -> x = c) ->
  no_double p s = true ->
  forall b, (b = true -> head_not p s = true) ->
            sub_runs_from p c b s = s.
Proof.
  intros Only. induction s as [|x r IH]; [reflexivity|].
  intros N b Hb. cbn [sub_runs_from].
  rewrite no_double_cons in N. apply andb_true_iff in N as [N1 N2].
  destruct (p x) eqn:Px.
  - destruct b.
    + specialize (Hb eq_refl). cbn in Hb. now rewrite Px in Hb.
    + rewrite (Only x Px) in *. f_equal. apply IH; [exact N2|].
      intros _. cbn in N1. exact N1.
  - f_equal. apply IH; [exact N2 | discriminate].
Qed.

(** A clean name no longer than the limit is returned as it is. *)
Lemma clean_name_unchanged (s : string) (max_length : Z) :
  clean_name s -> (len s <= max_length)%Z ->
  sanitize_filename s max_length = s.
Proof.
  intros (Ne & Safe & Nd & Hd & Lt) L. unfold sanitize_filename.
  assert (all_chars (fun c => negb (is_invalid_filename_char c)) s = true) as A1.
  { eapply all_chars_weaken; [|exact Safe].
    intros c Hc. now rewrite (filename_char_not_invalid c Hc). }
  assert (all_chars (fun c => negb (isspace c)) s = true) as A2.
  { eapply all_chars_weaken; [|exact Safe].
    intros c Hc. now rewrite (filename_char_not_space c Hc). }
  rewrite (filter_chars_all _ s A1).
  assert (strip s = s) as ->.
  { unfold strip, lstrip.
    rewrite (drop_while_head_not _ _ (head_not_none _ _ A2)).
    rewrite rstrip_is_rstrip_by.
    apply rstrip_by_last_not, last_not_none, A2. }
  unfold sub_runs. rewrite (sub_runs_none _ _ _ A2).
  rewrite (filter_chars_all _ s Safe).
  rewrite (sub_runs_single is_hyphen "-" s); [| |exact Nd|discriminate].
  2:{ intros x Hx. now apply Ascii.eqb_eq in Hx. }
  unfold strip_by, lstrip_by.
  rewrite (drop_while_head_not _ _ Hd), (rstrip_by_last_not _ _ Lt).
  apply Z.ltb_ge in L. rewrite L.
  apply StrFacts.is_empty_false in Ne. now rewrite Ne.
Qed.

(** The text before the fallback to [untitled]. *)
Lemma before_fallback_shape (text : string) (max_length : Z) :
  let t4 := sub_runs is_hyphen "-"
              (filter_chars is_filename_char
                 (sub_runs isspace "-"
                    (strip (filter_chars
                              (fun c => negb (is_invalid_filename_char c))
                              text)))) in
  let t5 := strip_by is_hyphen t4 in
  let t6 := if (max_length <? len t5)%Z
            then rstrip_by is_hyphen (slice_to max_length t5) else t5 in
  all_chars is_filename_char t6 = true
  /\ no_double is_hyphen t6 = true
  /\ head_not is_hyphen t6 = true
  /\ last_not is_hyphen t6 = true
  /\ ((0 <= max_length)%Z -> (len t6 <= max_length)%Z).
Proof.
  intros t4 t5 t6.
  assert (all_chars is_filename_char t5 = true) as S5.
  { apply all_chars_rstrip_by, all_chars_drop_while, all_chars_sub_runs;
      [reflexivity | apply all_chars_filter]. }
  assert (no_double is_hyphen t5 = true) as N5.
  { apply no_double_rstrip_by, no_double_drop_while.
    now apply (sub_runs_no_double is_hyphen "-" _ eq_refl false). }
  assert (head_not is_hyphen t5 = true) as H5.
  { apply head_not_rstrip_by, head_not_drop_while. }
  assert (last_not is_hyphen t5 = true) as L5 by apply last_not_rstrip_by.
  subst t6. destruct (max_length <? len t5)%Z eqn:E.
  - repeat split.
    + now apply all_chars_rstrip_by, all_chars_slice_to.
    + now apply no_double_rstrip_by, no_double_slice_to.
    + now apply head_not_rstrip_by, head_not_slice_to.
    + apply last_not_rstrip_by.
    + intros P. pose proof (slice_to_length max_length t5 P) as B.
      pose proof (rstrip_by_length is_hyphen (slice_to max_length t5)).
      unfold len in *. lia.
  - repeat split; try assumption. intros _. now apply Z.ltb_ge in E.
Qed.

(** The result: a clean name, within the limit or the length of
    [untitled]. *)
Lemma result_shape (text : string) (max_length : Z) :
  clean_name (sanitize_filename text max_length)
  /\ ((0 <= max_length)%Z ->
      (len (sanitize_filename text max_length) <= Z.max max_length 8)%Z).
Proof.
  pose proof (before_fallback_shape text max_length) as H.
  cbv zeta in H. destruct H as (S & N & Hd & L & B).
  unfold sanitize_filename.
  match goal with |- clean_name (if is_empty ?t then _ else _) /\ _ =>
    destruct t as [|c r] eqn:E end; cbn [is_empty].
  - split; [repeat split; try reflexivity; discriminate|].
    intros _. unfold len. simpl. lia.
  - split; [repeat split; try assumption; discriminate|].
    intros P. specialize (B P). lia.
Qed.

End SanitizeFacts.

(* ================================================================== *)
(** * Further properties *)
(* ================================================================== *)

(** ** File names *)

(** X3: Whatever the text and the limit, the result is a clean name: not empty,
    made of letters, digits, hyphens and underscores, with no doubled hyphen
    and no hyphen at either end. *)
Theorem sanitize_filename_clean (text : string) (max_length : Z) :
  Predicates.clean_name (Utils.sanitize_filename text max_length).
Proof.
  destruct (SanitizeFacts.result_shape text max_length) as [C _].
  exact C.
Qed.

(** X4: With a limit that is not negative the result is no longer than the
    limit, or than the 8 characters of [untitled] when that is more. *)
Theorem sanitize_filename_length (text : string) (max_length : Z) :
  (0 <= max_length)%Z ->
  (len (Utils.sanitize_filename text max_length) <= Z.max max_length 8)%Z.
Proof.
  intros P.
  destruct (SanitizeFacts.result_shape text max_length) as [_ B].
  exact (B P).
Qed.

Lemma sanitize_filename_length_witness :
  (len (Utils.sanitize_filename "a b c d e f g h i j" 5) <= Z.max 5 8)%Z.
Proof. apply sanitize_filename_length. lia. Defined.

(** X5: With a limit of at least 8, sanitizing twice is sanitizing once. *)
Theorem sanitize_filename_idempotent (text : string) (max_length : Z) :
  (8 <= max_length)%Z ->
  Utils.sanitize_filename (Utils.sanitize_filename text max_length) max_length
  = Utils.sanitize_filename text max_length.
Proof.
  intros P.
  destruct (SanitizeFacts.result_shape text max_length) as [C B].
  apply SanitizeFacts.clean_name_unchanged; [exact C|].
  assert (0 <= max_length)%Z as Q by lia. specialize (B Q). lia.
Qed.

Lemma sanitize_filename_idempotent_witness :
  Utils.sanitize_filename (Utils.sanitize_filename "My <Chat>: a/b" 50) 50
  = Utils.sanitize_filename "My <Chat>: a/b" 50.
Proof. apply sanitize_filename_idempotent. lia. Defined.

(** ** Display texts *)

(** X8: When the suffix fits into the limit, so does the result; and a text
    that had to be cut comes back exactly as long as the limit: a beginning
    of the text followed by the suffix. *)
Theorem truncate_text_within_limit (text suffix : string) (max_length : Z) :
  (len suffix <= max_length)%Z ->
  (len (Utils.truncate_text text max_length suffix) <= max_length)%Z
  /\ ((max_length < len text)%Z ->
      len (Utils.truncate_text text max_length suffix) = max_length
      /\ exists kept,
          Utils.truncate_text text max_length suffix = kept ++ suffix
          /\ startswith kept text = true).
Proof.
  intros S. unfold Utils.truncate_text.
  destruct (len text <=? max_length)%Z eqn:E.
  - apply Z.leb_le in E. split; [exact E | lia].
  - apply Z.leb_gt in E.
    assert (len (slice_to (max_length - len suffix) text ++ suffix)
            = max_length) as L.
    { unfold len, slice_to in *.
      assert ((0 <=? max_length - Z.of_nat (String.length suffix))%Z = true)
        as -> by (apply Z.leb_le; lia).
      rewrite NameFacts.append_length, NameFacts.take_length. lia. }
    split; [lia|]. intros _. split; [exact L|].
    exists (slice_to (max_length - len suffix) text). split; [reflexivity|].
    unfold slice_to.
    destruct (0 <=? max_length - len suffix)%Z; apply NameFacts.take_is_prefix.
Qed.

Lemma truncate_text_within_limit_witness :
  (len (Utils.truncate_text "hello world" 8 "...") <= 8)%Z
  /\ ((8 < len "hello world")%Z ->
      len (Utils.truncate_text "hello world" 8 "...") = 8%Z
      /\ exists kept,
          Utils.truncate_text "hello world" 8 "..." = kept ++ "..."
          /\ startswith kept "hello world" = true).
Proof. apply truncate_text_within_limit. vm_compute. discriminate. Defined.

(** X9: When the suffix is longer than the limit, a text that has to be cut
    comes back longer than the limit. *)
Theorem truncate_text_overlong_suffix (text suffix : string) (max_length : Z) :
  (max_length < len suffix)%Z -> (max_length < len text)%Z ->
  (max_length < len (Utils.truncate_text text max_length suffix))%Z.
Proof.
  intros S T. unfold Utils.truncate_text.
  assert ((len text <=? max_length)%Z = false) as ->
      by (apply Z.leb_gt; exact T).
  unfold len in *. rewrite NameFacts.append_length. lia.
Qed.

Lemma truncate_text_overlong_suffix_witness :
  (2 < len (Utils.truncate_text "hello world" 2 "..."))%Z.
Proof. apply truncate_text_overlong_suffix; vm_compute; reflexivity. Defined.

(** ** Share URLs and cache directory names *)

Module ShareUrlFacts.

Import Utils.

Lemma take_while_all (p : ascii -> bool) (s : string) :
  all_chars p s = true -> take_while p s = s.
Proof.
  induction s as [|x r IH]; simpl; [reflexivity|].
  intros H. apply andb_true_iff in H as [Hx Hr]. now rewrite Hx, IH.
Qed.

Lemma has_char_none (p : ascii -> bool) (c : ascii) (s : string) :
  all_chars p s = true -> p c = false -> has_char c s = false.
Proof.
  induction s as [|x r IH]; simpl; [reflexivity|].
  intros H Pc. apply andb_true_iff in H as [Hx Hr].
  rewrite (IH Hr Pc), orb_false_r. apply Ascii.eqb_neq. intros ->. congruence.
Qed.

Lemma has_char_append (c : ascii) (a b : string) :
  has_char c (a ++ b) = has_char c a || has_char c b.
Proof.
  induction a as [|x a IH]; simpl; [reflexivity|]. now rewrite IH, orb_assoc.
Qed.

Lemma filter_chars_append (f : ascii -> bool) (a b : string) :
  filter_chars f (a ++ b) = filter_chars f a ++ filter_chars f b.
Proof.
  induction a as [|x a IH]; simpl; [reflexivity|].
  destruct (f x); simpl; now rewrite IH.
Qed.

(** A delimiter found in the first part of a text is the one found in the
    whole. *)
Lemma break_append (p : ascii -> bool) (a b x z : string) (y : ascii) :
  break p a = (x, String y z) -> break p (a ++ b) = (x, String y z ++ b).
Proof.
  revert x. induction a as [|c a IH]; intros x; simpl; [discriminate|].
  destruct (p c).
  - intros [= <- <- <-]. reflexivity.
  - destruct (break p a) as [u v] eqn:E. intros [= <- ->].
    now rewrite (IH u eq_refl).
Qed.

Lemma drop_while_append (p : ascii -> bool) (c : ascii) (a b : string) :
  p c = false -> drop_while p (String c a ++ b) = String c a ++ b.
Proof. intros H. simpl. now rewrite H. Qed.

Lemma id_char_is_filename_char (c : ascii) :
  is_id_char c = true -> is_filename_char c = true.
Proof.
  destruct c as [[] [] [] [] [] [] [] []]; vm_compute; congruence.
Qed.

(** The characters of an identifier take no part in the splitting of a
    URL. *)
Lemma id_chars_harmless (id : string) :
  all_chars is_id_char id = true ->
  filter_chars (fun c => negb (is_unsafe_byte c)) id = id
  /\ has_char "#" id = false /\ has_char "?" id = false
  /\ has_char ";" id = false.
Proof.
  intros A. split.
  - apply NameFacts.all_chars_weaken
      with (q := fun c => negb (is_unsafe_byte c)) in A.
    + now apply SanitizeFacts.filter_chars_all.
    + intros c. destruct c as [[] [] [] [] [] [] [] []]; vm_compute; congruence.
  - repeat split; apply (has_char_none is_id_char); auto.
Qed.

Lemma urlparse_share (id : string) :
  all_chars is_id_char id = true ->
  urlparse ("https://claude.ai/share/" ++ id)
  = mkParseResult "https" "claude.ai" ("/share/" ++ id) "" "" "".
Proof.
  intros A. destruct (id_chars_harmless id A) as (F & H1 & H2 & H3).
  unfold urlparse.
  rewrite drop_while_append by reflexivity.
  rewrite filter_chars_append, F.
  replace (filter_chars (fun c => negb (is_unsafe_byte c))
                        "https://claude.ai/share/")
    with "https://claude.ai/share/" by reflexivity.
  assert (split_scheme ("https://claude.ai/share/" ++ id)
          = ("https", "//claude.ai/share/" ++ id)) as ->.
  { unfold split_scheme.
    rewrite (break_append (Ascii.eqb ":") "https://claude.ai/share/" id
                          "https" "//claude.ai/share/" ":" eq_refl).
    reflexivity. }
  assert (split_netloc ("//claude.ai/share/" ++ id)
          = ("claude.ai", "/share/" ++ id)) as ->.
  { unfold split_netloc. cbn [append].
    apply (break_append is_netloc_delim "claude.ai/share/" id "claude.ai"
                        "share/" "/" eq_refl). }
  rewrite has_char_append, H1.
  replace (has_char "#" "/share/") with false by reflexivity.
  cbv beta iota delta [orb].
  rewrite has_char_append, H2.
  replace (has_char "?" "/share/") with false by reflexivity.
  cbv beta iota delta [orb].
  rewrite has_char_append, H3.
  replace (has_char ";" "/share/") with false by reflexivity.
  now rewrite andb_false_r.
Qed.

Lemma digits_of_uint (u : Decimal.uint) :
  all_chars is_digit (NilEmpty.string_of_uint u) = true.
Proof. induction u; simpl; auto. Qed.

Lemma padded_digits (width n : nat) :
  all_chars is_digit (padded width n) = true.
Proof.
  unfold padded. rewrite NameFacts.all_chars_append.
  apply andb_true_iff. split.
  - induction (width - _) as [|k IH]; simpl; auto.
  - unfold NilZero.string_of_uint.
    destruct (Nat.to_uint n) eqn:E; try reflexivity;
      rewrite <- E; apply digits_of_uint.
Qed.

End ShareUrlFacts.

(** X1: A share URL written as [https://claude.ai/share/] followed by a
    non-empty identifier over [[a-f0-9-]] passes the validation, and the
    identifier extracted from it is the one it was written with. *)
Theorem share_url_round_trip (id : string) :
  id <> "" -> all_chars Utils.is_id_char id = true ->
  Utils.extract_share_id ("https://claude.ai/share/" ++ id) = Some id
  /\ Utils.is_valid_claude_share_url ("https://claude.ai/share/" ++ id) = true.
Proof.
  intros Ne A.
  assert (Utils.extract_share_id ("https://claude.ai/share/" ++ id) = Some id)
    as E.
  { unfold Utils.extract_share_id. cbn.
    rewrite (ShareUrlFacts.take_while_all _ _ A).
    destruct id; [congruence | reflexivity]. }
  split; [exact E|].
  unfold Utils.is_valid_claude_share_url.
  rewrite (ShareUrlFacts.urlparse_share id A), E. reflexivity.
Qed.

Lemma share_url_round_trip_witness :
  Utils.extract_share_id ("https://claude.ai/share/" ++ "0a-f9") = Some "0a-f9"
  /\ Utils.is_valid_claude_share_url ("https://claude.ai/share/" ++ "0a-f9")
     = true.
Proof. apply share_url_round_trip; [discriminate | reflexivity]. Defined.

(** X2: A URL that passes the validation has an identifier: [extract_share_id]
    does not answer [None] on it, and what it answers is not empty and made
    of [[a-f0-9-]] only. *)
Theorem valid_url_has_share_id (url : string) :
  Utils.is_valid_claude_share_url url = true ->
  exists id, Utils.extract_share_id url = Some id
             /\ id <> "" /\ all_chars Utils.is_id_char id = true.
Proof.
  intros V. apply UrlFacts.valid_iff in V as (_ & _ & E).
  destruct (Utils.extract_share_id url) as [id|] eqn:X; [|congruence].
  exists id. split; [reflexivity|]. exact (UrlFacts.share_id_shape url id X).
Qed.

Lemma valid_url_has_share_id_witness :
  exists id, Utils.extract_share_id Samples.share_url = Some id
             /\ id <> "" /\ all_chars Utils.is_id_char id = true.
Proof. apply valid_url_has_share_id. reflexivity. Defined.

(** X7: The name of a cache directory, made with the identifier extracted from
    any URL (or with none), consists of letters, digits, hyphens and
    underscores only: no separator, no dot. *)
Theorem cache_dir_name_chars (now : Utils.date) (title url : string)
        (d : option Utils.date) :
  all_chars Utils.is_filename_char
            (Utils.generate_cache_dir_name now title
                                           (Utils.extract_share_id url) d)
  = true.
Proof.
  unfold Utils.generate_cache_dir_name, Utils.strftime_ymd.
  assert (forall w n, all_chars Utils.is_filename_char (Utils.padded w n) = true)
    as P.
  { intros w n. apply NameFacts.all_chars_weaken with (p := is_digit).
    - intros c Hc. unfold Utils.is_filename_char. now rewrite Hc, orb_true_r.
    - apply ShareUrlFacts.padded_digits. }
  destruct (SanitizeFacts.result_shape title 30) as [(_ & S & _) _].
  rewrite !NameFacts.all_chars_append, !P, S. cbn [all_chars andb].
  destruct (Utils.extract_share_id url) as [[|c r]|] eqn:E; try reflexivity.
  apply NameFacts.all_chars_slice_to.
  apply NameFacts.all_chars_weaken with (p := Utils.is_id_char).
  - apply ShareUrlFacts.id_char_is_filename_char.
  - exact (proj2 (UrlFacts.share_id_shape url _ E)).
Qed.

(** ** Titles *)

Module TitleShape.

Import Predicates.

Lemma sub_spaces_is_sub_runs (s : string) :
  forall b, sub_spaces_from b s = sub_runs_from isspace " " b s.
Proof.
  induction s as [|x r IH]; intros b; [reflexivity|]. cbn.
  destruct (isspace x); [destruct b|]; now rewrite IH.
Qed.

Lemma sub_runs_class (p : ascii -> bool) (c : ascii) (s : string) :
  forall b,
    all_chars (fun x => negb (p x) || Ascii.eqb x c) (sub_runs_from p c b s)
    = true.
Proof.
  induction s as [|x r IH]; intros b; [reflexivity|]. cbn [sub_runs_from].
  destruct (p x) eqn:Px; [destruct b|]; cbn [all_chars];
    rewrite ?Px, ?Ascii.eqb_refl, ?orb_true_r, ?IH; auto.
Qed.

Lemma sub_runs_head_not (p : ascii -> bool) (c : ascii) (s : string) :
  head_not p s = true -> head_not p (sub_runs_from p c false s) = true.
Proof.
  destruct s as [|x r]; [reflexivity|]. cbn. intros H.
  apply negb_true_iff in H. rewrite H. cbn. now rewrite H.
Qed.

Lemma sub_runs_nonempty (p : ascii -> bool) (c : ascii) (s : string) :
  s <> "" -> last_not p s = true -> forall b, sub_runs_from p c b s <> "".
Proof.
  induction s as [|x r IH]; [congruence|]. intros _ L b. cbn [sub_runs_from].
  destruct (p x) eqn:Px; [destruct b|]; try discriminate.
  destruct r as [|y t]; [cbn in L; now rewrite Px in L|].
  apply IH; [discriminate | exact L].
Qed.

Lemma last_not_cons (p : ascii -> bool) (x : ascii) (t : string) :
  t <> "" -> last_not p (String x t) = last_not p t.
Proof. destruct t; [congruence | reflexivity]. Qed.

Lemma sub_runs_last_not (p : ascii -> bool) (c : ascii) (s : string) :
  last_not p s = true -> forall b, last_not p (sub_runs_from p c b s) = true.
Proof.
  induction s as [|x r IH]; [reflexivity|]. intros L b.
  destruct r as [|y t].
  - cbn in L. apply negb_true_iff in L. cbn. rewrite L. cbn. now rewrite L.
  - assert (last_not p (String y t) = true) as L' by exact L.
    remember (String y t) as r' eqn:Er.
    assert (r' <> "") as Ne by (subst r'; discriminate).
    cbn [sub_runs_from]. destruct (p x); [destruct b|].
    + now apply IH.
    + rewrite last_not_cons; [now apply IH|].
      now apply sub_runs_nonempty.
    + rewrite last_not_cons; [now apply IH|].
      now apply sub_runs_nonempty.
Qed.

(** ** The cut of the site suffix *)

Lemma strip_prefix_split (p s r : string) :
  strip_prefix p s = Some r -> s = p ++ r.
Proof.
  revert s. induction p as [|a p IH]; intros [|b s]; simpl; try congruence.
  destruct (Ascii.eqb a b) eqn:E; [|discriminate].
  apply Ascii.eqb_eq in E. subst b. intros H. now rewrite (IH s H).
Qed.

Lemma drop_while_split (p : ascii -> bool) (s : string) :
  exists pre, s = pre ++ drop_while p s.
Proof.
  induction s as [|x r [pre IH]]; [now exists ""|]. cbn.
  destruct (p x); [|now exists ""].
  exists (String x pre). cbn. now rewrite <- IH.
Qed.

Lemma break_split (p : ascii -> bool) (s : string) :
  s = fst (break p s) ++ snd (break p s).
Proof.
  induction s as [|x r IH]; [reflexivity|]. cbn.
  destruct (p x); [reflexivity|].
  destruct (break p r) as [a b]. cbn in *. now rewrite <- IH.
Qed.

Lemma match_leaves_suffix (s rest : string) :
  match_claude_suffix_at s = Some rest ->
  (rest = "" \/ rest = nl) /\ exists pre, s = pre ++ rest.
Proof.
  unfold match_claude_suffix_at.
  destruct (drop_while_split isspace s) as [p1 E1].
  destruct (strip_prefix "|" (drop_while isspace s)) as [r1|] eqn:S1;
    [|discriminate].
  apply strip_prefix_split in S1.
  destruct (drop_while_split isspace r1) as [p2 E2].
  destruct (strip_prefix "Claude" (drop_while isspace r1)) as [r2|] eqn:S2;
    [|discriminate].
  apply strip_prefix_split in S2.
  pose proof (break_split (Ascii.eqb LF) r2) as E3.
  destruct (is_empty (snd (break (Ascii.eqb LF) r2))
            || String.eqb (snd (break (Ascii.eqb LF) r2)) nl) eqn:C;
    [|discriminate].
  intros [= <-]. split.
  - apply orb_true_iff in C as [C | C].
    + left. now apply StrFacts.is_empty_true.
    + right. now apply String.eqb_eq.
  - exists (p1 ++ "|" ++ p2 ++ "Claude" ++ fst (break (Ascii.eqb LF) r2)).
    rewrite !StrFacts.append_assoc. rewrite <- E3, <- S2, <- E2.
    change ("|" ++ r1) with (String "|" r1) in S1.
    cbn [append]. rewrite <- S1. exact E1.
Qed.

Lemma last_not_append_space (pre : string) :
  last_not isspace (pre ++ nl) = false.
Proof.
  induction pre as [|x r IH]; [reflexivity|].
  cbn [append]. rewrite last_not_cons; [exact IH|].
  destruct r; discriminate.
Qed.

Lemma match_after_space (c : ascii) (r : string) :
  isspace c = true ->
  match_claude_suffix_at (String c r) = match_claude_suffix_at r.
Proof.
  intros H. unfold match_claude_suffix_at. cbn [drop_while]. now rewrite H.
Qed.

Lemma match_rest_empty (s rest : string) :
  last_not isspace s = true ->
  match_claude_suffix_at s = Some rest -> rest = "".
Proof.
  intros L M. destruct (match_leaves_suffix s rest M) as [[E | E] [pre P]];
    [exact E|].
  subst rest. rewrite P, last_not_append_space in L. discriminate.
Qed.

Lemma sub_claude_last_not (s : string) :
  last_not isspace s = true -> last_not isspace (sub_claude_suffix s) = true.
Proof.
  induction s as [|c r IH]; intros L.
  - reflexivity.
  - cbn [sub_claude_suffix].
    destruct (match_claude_suffix_at (String c r)) as [rest|] eqn:M.
    + now rewrite (match_rest_empty _ _ L M).
    + destruct r as [|y t].
      * cbn. exact L.
      * assert (last_not isspace (String y t) = true) as L' by exact L.
        specialize (IH L').
        remember (String y t) as r' eqn:Er.
        destruct (sub_claude_suffix r') as [|z u] eqn:S.
        -- cbn. subst r'. cbn [sub_claude_suffix] in S.
           destruct (match_claude_suffix_at (String y t)) eqn:M';
             [|discriminate].
           destruct (isspace c) eqn:Sc; [|reflexivity].
           rewrite (match_after_space c _ Sc), M' in M. discriminate.
        -- rewrite last_not_cons by discriminate. exact IH.
Qed.

Lemma sub_claude_head_not (s : string) :
  head_not isspace s = true -> last_not isspace s = true ->
  head_not isspace (sub_claude_suffix s) = true.
Proof.
  destruct s as [|c r]; [reflexivity|]. intros H L.
  cbn [sub_claude_suffix].
  destruct (match_claude_suffix_at (String c r)) as [rest|] eqn:M.
  - now rewrite (match_rest_empty _ _ L M).
  - exact H.
Qed.

Lemma strip_ends (text : string) :
  head_not isspace (strip text) = true /\ last_not isspace (strip text) = true.
Proof.
  split.
  - unfold strip. destruct (StrFacts.lstrip_result text) as [-> | (c & r & -> & Hc)];
      [reflexivity|].
    cbn. rewrite Hc. cbn. now rewrite Hc.
  - unfold strip. rewrite SanitizeFacts.rstrip_is_rstrip_by.
    apply NameFacts.last_not_rstrip_by.
Qed.

Lemma clean_title_single_spaced (text : string) :
  single_spaced (clean_title text).
Proof.
  unfold clean_title, sub_spaces. rewrite sub_spaces_is_sub_runs.
  destruct (strip_ends text) as [H L].
  repeat split.
  - apply sub_runs_class.
  - now apply (NameFacts.sub_runs_no_double isspace " " _ eq_refl false).
  - apply sub_runs_head_not, sub_claude_head_not; assumption.
  - apply sub_runs_last_not, sub_claude_last_not; assumption.
Qed.

Lemma title_from_shape (soup : node) (sels : list selector) :
  title_from soup sels <> "" /\ title_from soup sels <> "Claude"
  /\ single_spaced (title_from soup sels).
Proof.
  induction sels as [|sel rest IH]; cbn [title_from].
  - repeat split; try discriminate; reflexivity.
  - destruct (select_one sel ([], soup)) as [[q element]|]; [|exact IH].
    destruct (negb (is_empty (strip (get_text element)))); [|exact IH].
    destruct (negb (is_empty (clean_title (get_text element)))
              && negb (String.eqb (clean_title (get_text element)) "Claude"))
      eqn:C; [|exact IH].
    apply andb_true_iff in C as [C1 C2].
    apply negb_true_iff in C1, C2.
    apply StrFacts.is_empty_false in C1. apply String.eqb_neq in C2.
    repeat split; try assumption; apply clean_title_single_spaced.
Qed.

End TitleShape.

(** X10: Whatever the document, the title is not empty, is not the bare site name,
    and is a single line: its white space is single blanks between words,
    with none at either end. *)
Theorem title_shape (soup : node) :
  _extract_title soup <> "" /\ _extract_title soup <> "Claude"
  /\ Predicates.single_spaced (_extract_title soup).
Proof.
  unfold _extract_title.
  destruct (TitleShape.title_from_shape soup title_selectors) as (A & B & C).
  repeat split; try assumption; apply C.
Qed.

(** ** Locating and ordering the turns *)

Module SortFacts.

Import Predicates.

Section ByKey.

Context {A : Type} (key : A -> nat).

Lemma insert_by_perm (x : A) (l : list A) :
  Permutation (insert_by key x l) (x :: l).
Proof.
  induction l as [|y r IH]; cbn; [reflexivity|].
  destruct (Nat.leb (key x) (key y)); [reflexivity|].
  rewrite IH. apply perm_swap.
Qed.

Lemma sort_by_perm (l : list A) : Permutation (sort_by key l) l.
Proof.
  induction l as [|x l IH]; cbn; [reflexivity|].
  change (fold_right (insert_by key) [] l) with (sort_by key l).
  rewrite insert_by_perm. now constructor.
Qed.

Lemma insert_by_sorted (x : A) (l : list A) :
  StronglySorted (key_le key) l -> StronglySorted (key_le key) (insert_by key x l).
Proof.
  induction 1 as [|y r S IH F]; cbn.
  - repeat constructor.
  - destruct (Nat.leb (key x) (key y)) eqn:E.
    + apply Nat.leb_le in E. constructor; [now constructor|].
      constructor; [exact E|].
      eapply Forall_impl; [|exact F]. unfold key_le. intros z Hz. lia.
    + apply Nat.leb_gt in E. constructor; [exact IH|].
      eapply Permutation_Forall; [symmetry; apply insert_by_perm|].
      constructor; [unfold key_le; lia | exact F].
Qed.

Lemma sort_by_sorted (l : list A) : StronglySorted (key_le key) (sort_by key l).
Proof.
  induction l as [|x l IH]; cbn; [constructor|].
  now apply insert_by_sorted.
Qed.

Lemma insert_by_filter (k : nat) (x : A) (l : list A) :
  filter (fun a => Nat.eqb (key a) k) (insert_by key x l)
  = filter (fun a => Nat.eqb (key a) k) (x :: l).
Proof.
  induction l as [|y r IH]; [reflexivity|]. cbn [insert_by].
  destruct (Nat.leb (key x) (key y)) eqn:E; [reflexivity|].
  apply Nat.leb_gt in E. cbn [filter] in *. rewrite IH.
  destruct (Nat.eqb (key y) k) eqn:Y, (Nat.eqb (key x) k) eqn:X;
    try reflexivity.
  apply Nat.eqb_eq in X, Y. lia.
Qed.

(** The sort keeps the elements of one key in the order they had. *)
Lemma sort_by_stable (k : nat) (l : list A) :
  filter (fun a => Nat.eqb (key a) k) (sort_by key l)
  = filter (fun a => Nat.eqb (key a) k) l.
Proof.
  induction l as [|x l IH]; [reflexivity|].
  change (sort_by key (x :: l)) with (insert_by key x (sort_by key l)).
  rewrite insert_by_filter. cbn [filter]. now rewrite IH.
Qed.

End ByKey.

Lemma map_insert_by {A B : Type} (f : A -> B) (ka : A -> nat) (kb : B -> nat)
      (x : A) (l : list A) :
  (forall a, kb (f a) = ka a) ->
  map f (insert_by ka x l) = insert_by kb (f x) (map f l).
Proof.
  intros K. induction l as [|y r IH]; [reflexivity|]. cbn.
  rewrite !K. destruct (Nat.leb (ka x) (ka y)); cbn; [reflexivity|].
  now rewrite IH.
Qed.

Lemma map_sort_by {A B : Type} (f : A -> B) (ka : A -> nat) (kb : B -> nat)
      (l : list A) :
  (forall a, kb (f a) = ka a) ->
  map f (sort_by ka l) = sort_by kb (map f l).
Proof.
  intros K. induction l as [|x l IH]; [reflexivity|].
  change (sort_by ka (x :: l)) with (insert_by ka x (sort_by ka l)).
  rewrite (map_insert_by f ka kb _ _ K), IH. reflexivity.
Qed.

End SortFacts.

Module LocateFacts.

Import Predicates.

Lemma descendants_elem (p : path) (name : string) (cls : list string)
      (attrs : list (string * string)) (ch : list node) :
  descendants p (Elem name cls attrs ch) = below p 0 ch.
Proof.
  cbn [descendants]. generalize 0.
  induction ch as [|c r IH]; intros i; [reflexivity|].
  cbn [below]. now rewrite IH.
Qed.

Lemma subtree_app (n : node) (a b : path) :
  subtree n (a ++ b)%list
  = match subtree n a with
    | Some m => subtree m b
    | None => None
    end.
Proof.
  revert n. induction a as [|i a IH]; intros n; [reflexivity|]. cbn.
  destruct (nth_error (children n) i); [apply IH | reflexivity].
Qed.

(** Whatever [descendants] lists lies below the node, at the position
    listed. *)
Lemma descendants_sound (n : node) :
  forall p q x,
    In (q, x) (descendants p n) ->
    exists rel, rel <> [] /\ q = (p ++ rel)%list /\ subtree n rel = Some x.
Proof.
  induction n as [s | name cls attrs ch IH] using node_induction;
    intros p q x H; [contradiction|].
  rewrite descendants_elem in H.
  assert (forall i, In (q, x) (below p i ch) ->
                    exists k rel, q = (p ++ (i + k) :: rel)%list
                                  /\ subtree (Elem name cls attrs ch) (k :: rel)
                                     = Some x) as B.
  { clear H. cbn [subtree children].
    induction IH as [|c r Hc _ IHr]; intros i H; [contradiction|].
    cbn [below] in H. destruct H as [H | H].
    - injection H as <- <-. exists 0, []. rewrite Nat.add_0_r. auto.
    - apply in_app_or in H as [H | H].
      + destruct (Hc _ _ _ H) as (rel & _ & -> & Hs).
        exists 0, rel. rewrite Nat.add_0_r, <- app_assoc. auto.
      + destruct (IHr _ H) as (k & rel & -> & Hs).
        exists (Datatypes.S k), rel. rewrite Nat.add_succ_r. auto. }
  destruct (B 0 H) as (k & rel & -> & Hs).
  exists (k :: rel). split; [discriminate | auto].
Qed.

Lemma below_complete (p : path) (l : list node) :
  forall i k c,
    nth_error l k = Some c ->
    In ((p ++ [i + k])%list, c) (below p i l)
    /\ forall y, In y (descendants (p ++ [i + k])%list c) ->
                 In y (below p i l).
Proof.
  induction l as [|d r IH]; intros i [|k] c H; try discriminate.
  - injection H as ->. rewrite Nat.add_0_r. cbn [below]. split.
    + now left.
    + intros y Hy. right. apply in_or_app. now left.
  - cbn in H. destruct (IH (S i) k c H) as [A B].
    rewrite Nat.add_succ_r. cbn [below]. split.
    + right. apply in_or_app. now right.
    + intros y Hy. right. apply in_or_app. right. now apply B.
Qed.

(** Every node below is listed. *)
Lemma descendants_complete (rel : path) :
  forall n p x,
    rel <> [] -> subtree n rel = Some x ->
    In ((p ++ rel)%list, x) (descendants p n).
Proof.
  induction rel as [|k rel IH]; intros n p x Ne Hs; [congruence|].
  cbn in Hs. destruct (nth_error (children n) k) as [c|] eqn:N; [|discriminate].
  destruct n as [s | name cls attrs ch]; [destruct k; discriminate|].
  cbn [children] in N. rewrite descendants_elem.
  destruct (below_complete p ch 0 k c N) as [A B]. cbn in A, B.
  destruct rel as [|j rel].
  - injection Hs as <-. exact A.
  - apply B. replace (p ++ k :: j :: rel)%list with ((p ++ [k]) ++ j :: rel)%list
      by now rewrite <- app_assoc.
    apply IH; [discriminate | exact Hs].
Qed.

Lemma find_all_sound (f : node -> bool) (t c : located) :
  In c (find_all f t) ->
  is_tag (snd c) = true /\ f (snd c) = true
  /\ exists rel, rel <> [] /\ fst c = (fst t ++ rel)%list
                 /\ subtree (snd t) rel = Some (snd c).
Proof.
  unfold find_all. intros H. apply filter_In in H as [H F].
  apply andb_true_iff in F as [F1 F2]. destruct c as [q x].
  repeat split; try assumption. now apply descendants_sound.
Qed.

Lemma find_in_found (f : node -> bool) (n x : node) (rel : path) :
  rel <> [] -> subtree n rel = Some x -> is_tag x = true -> f x = true ->
  exists y, find_in f n = Some y /\ is_tag y = true /\ f y = true.
Proof.
  intros Ne Hs T F. unfold find_in, find_all_in.
  assert (In (rel, x) (find_all f ([], n))) as H.
  { unfold find_all. apply filter_In. split.
    - now apply (descendants_complete rel n [] x).
    - cbn. now rewrite T, F. }
  destruct (find_all f ([], n)) as [|[q y] l] eqn:E; [contradiction|].
  exists y. split; [reflexivity|].
  assert (In (q, y) (find_all f ([], n))) as Hy by (rewrite E; now left).
  apply find_all_sound in Hy. cbn in Hy. tauto.
Qed.

(** The walk up ends at a strict ancestor, which is styled. *)
Lemma styled_ancestor_sound (root : node) (fuel : nat) :
  forall p q par,
    styled_ancestor root p fuel = Some (q, par) ->
    is_styled par = true /\ subtree root q = Some par
    /\ exists rel, rel <> [] /\ p = (q ++ rel)%list.
Proof.
  induction fuel as [|k IH]; intros p q par H; [discriminate|].
  cbn [styled_ancestor] in H. unfold Bs4.parent in H.
  destruct p as [|i p']; [discriminate|].
  set (p := i :: p') in *.
  destruct (subtree root (removelast p)) as [n|] eqn:Hs; [|discriminate].
  assert (p = removelast p ++ [last p 0])%list as E
      by (apply app_removelast_last; discriminate).
  destruct (is_styled n) eqn:St.
  - injection H as <- <-. repeat split; try assumption.
    exists [last p 0]. split; [discriminate | exact E].
  - destruct (IH _ _ _ H) as (A & B & rel & Ne & R).
    repeat split; try assumption.
    exists (rel ++ [last p 0])%list. split.
    + destruct rel; discriminate.
    + rewrite app_assoc, <- R. exact E.
Qed.

Lemma first_selected_valid (soup : node) (sels : list selector) :
  subtree soup (fst (first_selected soup sels))
  = Some (snd (first_selected soup sels)).
Proof.
  induction sels as [|sel rest IH]; [reflexivity|]. cbn [first_selected].
  destruct (select_one sel ([], soup)) as [c|] eqn:Hs; [|exact IH].
  unfold select_one, find in Hs.
  destruct (find_all (matches sel) ([], soup)) as [|d l] eqn:E;
    [discriminate|].
  injection Hs as ->.
  assert (In c (find_all (matches sel) ([], soup))) as H
      by (rewrite E; now left).
  apply find_all_sound in H as (_ & _ & rel & _ & P & V).
  cbn in P, V. now rewrite P.
Qed.

(** A user container is a styled element of the document that holds a user
    message. *)
Lemma user_container_sound (root : node) (container c : located) :
  subtree root (fst container) = Some (snd container) ->
  In c (user_containers root container) ->
  is_styled (snd c) = true
  /\ subtree root (fst c) = Some (snd c)
  /\ exists um, find_in (has_attr "data-testid" "user-message") (snd c)
                = Some um
                /\ has_attr "data-testid" "user-message" um = true.
Proof.
  intros V H. unfold user_containers in H.
  apply in_flat_map in H as (um & Hum & Hc).
  destruct (styled_ancestor root (fst um) 10) as [[q par]|] eqn:A;
    [|contradiction].
  destruct Hc as [<-|[]]. cbn [fst snd].
  apply styled_ancestor_sound in A as (St & Sq & rel & Ne & P).
  apply find_all_sound in Hum as (T & F & rel' & _ & P' & S').
  repeat split; try assumption.
  assert (subtree root (fst um) = Some (snd um)) as Vu.
  { rewrite P', subtree_app, V. exact S'. }
  rewrite P, subtree_app, Sq in Vu.
  destruct (find_in_found _ par (snd um) rel Ne Vu T F) as (y & Y & _ & Fy).
  exists y. auto.
Qed.

Lemma turns_are_sorted_containers (root : node) (container : located) :
  _find_message_turns root container
  = sort_by (rank root)
            (user_containers root container ++ claude_containers container)%list.
Proof.
  unfold _find_message_turns. fold (user_containers root container).
  fold (claude_containers container).
  set (U := user_containers root container).
  set (C := claude_containers container).
  set (g := fun kd : Kind * located =>
              (fst kd, snd kd, _get_simple_position root (fst (snd kd)))).
  assert ((map (fun d => (user, d, _get_simple_position root (fst d))) U
           ++ map (fun d => (claude, d, _get_simple_position root (fst d))) C)%list
          = map g (map (pair user) U ++ map (pair claude) C)%list) as ->.
  { rewrite map_app, !map_map. reflexivity. }
  rewrite <- (SortFacts.map_sort_by g (fun kd => rank root (snd kd))
                (fun x : Kind * located * nat => snd x)) by reflexivity.
  rewrite map_map.
  change (fun x => snd (fst (g x))) with (fun x : Kind * located => snd x).
  rewrite (SortFacts.map_sort_by (@snd Kind located)
             (fun kd => rank root (snd kd)) (rank root)) by reflexivity.
  now rewrite map_app, !map_map, !map_id.
Qed.

End LocateFacts.

(** X11: The located turns are the discovered containers, each as often as it was
    discovered, in ascending order of rank; containers of one rank stay in
    the order of discovery, user containers first. *)
Theorem located_turns_are_sorted (root : node) (container : located) :
  let found := (Predicates.user_containers root container
                ++ Predicates.claude_containers container)%list in
  let turns := _find_message_turns root container in
  Permutation turns found
  /\ StronglySorted (Predicates.key_le (Predicates.rank root)) turns
  /\ forall k,
      filter (fun c => Nat.eqb (Predicates.rank root c) k) turns
      = filter (fun c => Nat.eqb (Predicates.rank root c) k) found.
Proof.
  cbv zeta. rewrite LocateFacts.turns_are_sorted_containers.
  split; [apply SortFacts.sort_by_perm|].
  split; [apply SortFacts.sort_by_sorted|].
  intros k. apply SortFacts.sort_by_stable.
Qed.

(** X12: Every located turn is an element of the document, found at the position
    recorded for it, and owes its place to a marker: it is styled and holds
    a user message, or it is a [div] marked as not streaming. *)
Theorem located_turn_is_marked (soup : node) (c : located) :
  In c (_find_message_turns soup (first_selected soup conversation_selectors)) ->
  subtree soup (fst c) = Some (snd c)
  /\ is_tag (snd c) = true
  /\ ((is_styled (snd c) = true
       /\ exists um,
           find_in (has_attr "data-testid" "user-message") (snd c) = Some um)
      \/ (named "div" (snd c) = true
          /\ has_attr "data-is-streaming" "false" (snd c) = true)).
Proof.
  intros H. rewrite LocateFacts.turns_are_sorted_containers in H.
  apply (Permutation_in _ (SortFacts.sort_by_perm _ _)) in H.
  pose proof (LocateFacts.first_selected_valid soup conversation_selectors) as V.
  apply in_app_or in H as [H | H].
  - destruct (LocateFacts.user_container_sound soup _ c V H)
      as (St & P & um & F & _).
    split; [exact P|]. split.
    + destruct (snd c); [discriminate St | reflexivity].
    + left. split; [exact St | now exists um].
  - apply LocateFacts.find_all_sound in H as (T & F & rel & _ & P & Hs).
    apply andb_true_iff in F as [F1 F2].
    split; [|split; [exact T | right; now split]].
    rewrite P, LocateFacts.subtree_app, V. exact Hs.
Qed.

Lemma located_turn_is_marked_witness :
  subtree Samples.question_answer [1] = Some (Samples.claude_turn
      [Samples.main_answer [Samples.paragraph "Hello"]])
  /\ is_tag (Samples.claude_turn
               [Samples.main_answer [Samples.paragraph "Hello"]]) = true
  /\ ((is_styled (Samples.claude_turn
                    [Samples.main_answer [Samples.paragraph "Hello"]]) = true
       /\ exists um,
           find_in (has_attr "data-testid" "user-message")
                   (Samples.claude_turn
                      [Samples.main_answer [Samples.paragraph "Hello"]])
           = Some um)
      \/ (named "div" (Samples.claude_turn
                         [Samples.main_answer [Samples.paragraph "Hello"]])
          = true
          /\ has_attr "data-is-streaming" "false"
                      (Samples.claude_turn
                         [Samples.main_answer [Samples.paragraph "Hello"]])
             = true)).
Proof.
  apply (located_turn_is_marked
           Samples.question_answer
           ([1], Samples.claude_turn
                   [Samples.main_answer [Samples.paragraph "Hello"]])).
  vm_compute. right. left. reflexivity.
Defined.

(** X13: A container located for a user message is parsed as a human turn,
    whatever its position, and its content is the stripped text of the first
    user message it holds. *)
Theorem user_turn_is_human
        (pyg : Pygments.env) (soup : node) (c : located) (i : nat) :
  In c (Predicates.user_containers
          soup (first_selected soup conversation_selectors)) ->
  _determine_message_role (snd c) i = human
  /\ exists um,
      find_in (has_attr "data-testid" "user-message") (snd c) = Some um
      /\ has_attr "data-testid" "user-message" um = true
      /\ _extract_message_content pyg (snd c) = get_text_strip um.
Proof.
  intros H.
  pose proof (LocateFacts.first_selected_valid soup conversation_selectors) as V.
  destruct (LocateFacts.user_container_sound soup _ c V H)
    as (_ & _ & um & F & A).
  split.
  - unfold _determine_message_role. now rewrite F.
  - exists um. repeat split; try assumption.
    unfold _extract_message_content. now rewrite F.
Qed.

Lemma user_turn_is_human_witness :
  _determine_message_role (Samples.user_turn [Text "Hi"]) 7 = human
  /\ exists um,
      find_in (has_attr "data-testid" "user-message")
              (Samples.user_turn [Text "Hi"]) = Some um
      /\ has_attr "data-testid" "user-message" um = true
      /\ _extract_message_content Samples.no_pygments
                                  (Samples.user_turn [Text "Hi"])
         = get_text_strip um.
Proof.
  apply (user_turn_is_human Samples.no_pygments Samples.question_answer
                            ([0], Samples.user_turn [Text "Hi"]) 7).
  vm_compute. left. reflexivity.
Defined.

(** ** The messages *)

Module MessageShape.

Import Predicates.

Lemma trimmed_concat (a b : string) :
  trimmed a -> trimmed b -> trimmed (a ++ b).
Proof.
  intros A B. destruct a as [|x a]; [exact B|].
  destruct b as [|y b]; [now rewrite StrFacts.append_empty_r|].
  apply (StrFacts.trimmed_append (String x a) "" (String y b));
    try assumption; discriminate.
Qed.

Lemma get_text_strip_trimmed (n : node) : trimmed (get_text_strip n).
Proof.
  induction n as [s | name cls attrs ch IH] using node_induction.
  - apply StrFacts.strip_trimmed.
  - cbn [get_text_strip]. induction IH as [|c r Hc _ IHr].
    + split; reflexivity.
    + now apply trimmed_concat.
Qed.

Section WithPygments.

Variable pyg : Pygments.env.

Lemma content_trimmed (element : node) :
  trimmed (_extract_message_content pyg element).
Proof.
  unfold _extract_message_content.
  destruct (find_in _ element); [apply get_text_strip_trimmed|].
  apply StrFacts.strip_trimmed.
Qed.

Lemma parsed_content (element : node) (i : nat) (m : Message) :
  _parse_message_element pyg element i = Some m ->
  content m <> "" /\ trimmed (content m) /\ timestamp m = None
  /\ content m = _extract_message_content pyg element.
Proof.
  unfold _parse_message_element.
  destruct (is_empty (strip (_extract_message_content pyg element))) eqn:E;
    [discriminate|].
  intros [= <-]. cbn [content timestamp].
  pose proof (content_trimmed element) as T.
  rewrite (StrFacts.strip_of_trimmed _ T) in E.
  apply StrFacts.is_empty_false in E. auto.
Qed.

(** A response renders to something only through its
    [font-claude-response] child. *)
Lemma content_needs_response (element : node) :
  find_in (has_attr "data-testid" "user-message") element = None ->
  _extract_message_content pyg element <> "" ->
  existsb (has_class "font-claude-response") (children element) = true.
Proof.
  intros U N. unfold _extract_message_content in N. rewrite U in N.
  unfold _extract_thinking_process, _extract_claude_main_response,
    claude_response_div in N.
  destruct (List.find (has_class "font-claude-response") (children element))
    as [response|] eqn:F; [|now contradiction N].
  apply existsb_exists. exists response.
  apply find_some in F. exact F.
Qed.

Lemma role_without_index (element : node) (i j : nat) :
  Utils.is_some (find_in (has_attr "data-testid" "user-message") element) = true
  \/ existsb (has_class "font-claude-response") (children element) = true ->
  _determine_message_role element i = _determine_message_role element j.
Proof.
  unfold _determine_message_role. intros [H | H].
  - now rewrite H.
  - destruct (Utils.is_some (find_in (has_attr _ _) element)); [reflexivity|].
    destruct (Utils.is_some (find_in _ element)); [reflexivity|].
    now rewrite H.
Qed.

Lemma text_children_skipped (l : list node) :
  structured_parts pyg (filter is_tag l) = structured_parts pyg l.
Proof.
  induction l as [|c r IH]; [reflexivity|].
  destruct c as [s | name cls attrs ch]; cbn [filter is_tag].
  - cbn. exact IH.
  - cbn [structured_parts]. now rewrite IH.
Qed.

End WithPygments.

End MessageShape.


(** X19: Every message returned has a content that is not empty and has no white
    space at either end, and no time stamp. *)
Theorem message_content_shape (pyg : Pygments.env) (soup : node) :
  Forall (fun m => content m <> "" /\ Predicates.trimmed (content m)
                   /\ timestamp m = None)
         (_extract_messages pyg soup).
Proof.
  unfold _extract_messages.
  eapply Forall_impl;
    [|apply (TurnFacts.parse_turns_origin pyg (message_elements soup) 0)].
  intros m (_ & e & _ & P).
  destruct (MessageShape.parsed_content pyg e _ m P) as (A & B & C & _).
  auto.
Qed.

(** X20: The role of a message that is returned is decided by the first
    three tests alone: it is human when the container holds a user message
    or an avatar [div] whose string is [D], and assistant otherwise, the
    container then having a [font-claude-response] child. The tests that
    follow (parts of class names, prefixes of the text, the parity of the
    index) are never reached, and the container yields the same role and
    content at any other index. *)
Theorem returned_role_decided_by_markers
        (pyg : Pygments.env) (element : node) (i : nat) (m : Message) :
  _parse_message_element pyg element i = Some m ->
  role m = (if Predicates.holds_user_message element
               || Predicates.holds_avatar element
            then human else assistant)
  /\ (Predicates.holds_user_message element = true
      \/ Predicates.has_response_child element = true)
  /\ forall j, _parse_message_element pyg element j
               = Some (mkMessage (role m) (content m) j None).
Proof.
  intros P. pose proof (MessageShape.parsed_content pyg element i m P)
    as (Ne & _ & _ & C).
  assert (Predicates.holds_user_message element = true
          \/ Predicates.has_response_child element = true) as D.
  { unfold Predicates.holds_user_message, Predicates.has_response_child.
    destruct (find_in (has_attr "data-testid" "user-message") element) eqn:U;
      [now left | right].
    apply (MessageShape.content_needs_response pyg); [exact U|].
    now rewrite <- C. }
  unfold _parse_message_element in *.
  destruct (is_empty (strip (_extract_message_content pyg element)));
    [discriminate|].
  injection P as <-. cbn [role content]. split; [|split; [exact D|]].
  - unfold _determine_message_role.
    fold (Predicates.holds_user_message element).
    fold (Predicates.holds_avatar element).
    fold (Predicates.has_response_child element).
    destruct (Predicates.holds_user_message element); [reflexivity|].
    destruct (Predicates.holds_avatar element); [reflexivity|].
    destruct D as [D | D]; [discriminate | now rewrite D].
  - intros j. f_equal. f_equal.
    apply MessageShape.role_without_index. exact D.
Qed.

Lemma returned_role_decided_by_markers_witness :
  role (mkMessage assistant
                  (thinking_label ++ "thinking" ++ nl ++ nl ++ "answer")
                  1 None)
  = (if Predicates.holds_user_message Samples.thinking_turn
        || Predicates.holds_avatar Samples.thinking_turn
     then human else assistant)
  /\ (Predicates.holds_user_message Samples.thinking_turn = true
      \/ Predicates.has_response_child Samples.thinking_turn = true)
  /\ forall j, _parse_message_element Samples.no_pygments
                                       Samples.thinking_turn j
               = Some (mkMessage
                         (role (mkMessage assistant
                                  (thinking_label ++ "thinking" ++ nl ++ nl
                                   ++ "answer") 1 None))
                         (content (mkMessage assistant
                                     (thinking_label ++ "thinking" ++ nl ++ nl
                                      ++ "answer") 1 None))
                         j None).
Proof.
  apply (returned_role_decided_by_markers
           Samples.no_pygments Samples.thinking_turn 1
           (mkMessage assistant
                      (thinking_label ++ "thinking" ++ nl ++ nl ++ "answer")
                      1 None)).
  reflexivity.
Defined.

(** X21: Text placed directly in a container, outside any element, is not
    rendered: the structured content is that of the element children
    alone. *)
Theorem bare_text_not_rendered
        (pyg : Pygments.env) (name : string) (cls : list string)
        (attrs : list (string * string)) (ch : list node) :
  _extract_structured_content pyg (Elem name cls attrs ch)
  = _extract_structured_content pyg (Elem name cls attrs (filter is_tag ch)).
Proof.
  unfold _extract_structured_content. cbn [children].
  now rewrite MessageShape.text_children_skipped.
Qed.

(** ** Lines *)

Module LineFacts.

Import Predicates.

Lemma split_one_line (s : string) : one_line s = true -> split LF s = [s].
Proof.
  unfold one_line. induction s as [|c r IH]; [reflexivity|]. cbn.
  intros H. apply andb_true_iff in H as [Hc Hr].
  apply negb_true_iff in Hc. now rewrite Hc, (IH Hr).
Qed.

Lemma split_first_line (a b : string) :
  one_line a = true -> split LF (a ++ nl ++ b) = a :: split LF b.
Proof.
  unfold one_line. induction a as [|c r IH]; cbn.
  - intros _. reflexivity.
  - intros H. apply andb_true_iff in H as [Hc Hr].
    apply negb_true_iff in Hc. rewrite Hc.
    cbn in IH. now rewrite (IH Hr).
Qed.

(** The lines joined are the lines found again. *)
Lemma split_join (ls : list string) :
  ls <> [] -> Forall (fun l => one_line l = true) ls ->
  split LF (join nl ls) = ls.
Proof.
  intros Ne F. induction F as [|l r Hl Hr IH]; [congruence|].
  destruct r as [|m r].
  - cbn. now apply split_one_line.
  - change (join nl (l :: m :: r)) with (l ++ nl ++ join nl (m :: r)).
    rewrite (split_first_line _ _ Hl), IH; [reflexivity | discriminate].
Qed.

Lemma split_lines (s : string) :
  Forall (fun l => one_line l = true) (split LF s).
Proof.
  unfold one_line. induction s as [|c r IH]; cbn; [repeat constructor|].
  destruct (Ascii.eqb c LF) eqn:E.
  - constructor; [reflexivity | exact IH].
  - destruct (split LF r) as [|w ws]; [repeat constructor; cbn; now rewrite E|].
    inversion IH as [|? ? Hw Hws]; subst.
    constructor; [cbn; now rewrite E, Hw | exact Hws].
Qed.

Lemma strip_one_line (s : string) :
  one_line s = true -> one_line (strip s) = true.
Proof.
  unfold one_line, strip, lstrip. intros H.
  rewrite SanitizeFacts.rstrip_is_rstrip_by.
  now apply NameFacts.all_chars_rstrip_by, NameFacts.all_chars_drop_while.
Qed.

Lemma format_of_blockquote (pyg : Pygments.env) (element : node) :
  named "blockquote" element = true ->
  _format_html_element pyg element
  = join nl (map (fun line => "> " ++ line)
                 (split LF (strip (get_text element)))).
Proof.
  destruct element as [s | name cls attrs ch]; cbn [named]; [discriminate|].
  intros H. apply String.eqb_eq in H. subst name. reflexivity.
Qed.

Lemma clean_lines (text : string) :
  Forall (fun l => l <> "" /\ trimmed l /\ one_line l = true)
         (map strip (filter (fun line => negb (is_empty (strip line)))
                            (split LF text))).
Proof.
  apply Forall_map. apply Forall_forall. intros l H.
  apply filter_In in H as [H N]. apply negb_true_iff in N.
  apply StrFacts.is_empty_false in N.
  split; [exact N|]. split; [apply StrFacts.strip_trimmed|].
  apply strip_one_line.
  exact (proj1 (Forall_forall _ _) (split_lines text) l H).
Qed.

End LineFacts.


(** X22: A block quote is rendered line by line: the output has the lines of the
    trimmed text, as many and in their order, each behind the mark [> ]. *)
Theorem blockquote_lines (pyg : Pygments.env) (element : node) :
  named "blockquote" element = true ->
  split LF (_format_html_element pyg element)
  = map (fun line => "> " ++ line) (split LF (strip (get_text element))).
Proof.
  intros H. rewrite (LineFacts.format_of_blockquote pyg element H).
  apply LineFacts.split_join.
  - pose proof (StrFacts.split_not_nil LF (strip (get_text element))) as N.
    destruct (split LF (strip (get_text element))); [congruence | discriminate].
  - apply Forall_map.
    eapply Forall_impl; [|apply LineFacts.split_lines].
    intros l Hl. exact Hl.
Qed.

Lemma blockquote_lines_witness :
  split LF (_format_html_element
              Samples.no_pygments
              (Elem "blockquote" [] [] [Text ("  one" ++ nl ++ "two ")]))
  = map (fun line => "> " ++ line)
        (split LF (strip (get_text
                            (Elem "blockquote" [] []
                                  [Text ("  one" ++ nl ++ "two ")])))).
Proof. apply blockquote_lines. reflexivity. Defined.

(** X23: Cleaning search results twice is cleaning them once; and a result that
    is not empty has no blank line and no line with white space at an
    end. *)
Theorem clean_search_results_idempotent (text : string) :
  _clean_search_results (_clean_search_results text)
  = _clean_search_results text
  /\ (_clean_search_results text = ""
      \/ Forall (fun l => l <> "" /\ Predicates.trimmed l)
                (split LF (_clean_search_results text))).
Proof.
  unfold _clean_search_results.
  pose proof (LineFacts.clean_lines text) as C.
  set (ls := map strip (filter _ (split LF text))) in *.
  destruct ls as [|l r] eqn:E; [split; [reflexivity | now left]|].
  assert (ls <> []) as Ne by (rewrite E; discriminate).
  rewrite <- E in *. clear E.
  assert (split LF (join nl ls) = ls) as S.
  { apply LineFacts.split_join.
    - exact Ne.
    - eapply Forall_impl; [|exact C]. intros x (_ & _ & O). exact O. }
  rewrite S. split.
  - f_equal.
    assert (filter (fun line => negb (is_empty (strip line))) ls = ls) as ->.
    { apply forallb_filter_id. apply forallb_forall. intros x Hx.
      destruct (proj1 (Forall_forall _ _) C x Hx) as (N & T & _).
      rewrite (StrFacts.strip_of_trimmed _ T).
      apply negb_true_iff. now apply StrFacts.is_empty_false. }
    rewrite <- (map_id ls) at 2. apply map_ext_in. intros x Hx.
    destruct (proj1 (Forall_forall _ _) C x Hx) as (_ & T & _).
    now apply StrFacts.strip_of_trimmed.
  - right. eapply Forall_impl; [|exact C]. intros x (N & T & _). auto.
Qed.

(** ** Ranks *)

(** X16: A container ranks after every container it lies in. *)
Theorem nested_ranked_after_ancestor (root : node) (p rel : path) :
  rel <> [] -> subtree root (p ++ rel)%list <> None ->
  _get_simple_position root p < _get_simple_position root (p ++ rel)%list.
Proof.
  intros Ne V.
  assert (subtree root p <> None) as Vp.
  { rewrite LocateFacts.subtree_app in V. destruct (subtree root p); congruence. }
  rewrite !RankFacts.rank_formula by assumption.
  rewrite list_sum_app, length_app.
  destruct rel; [congruence | simpl; lia].
Qed.

Lemma nested_ranked_after_ancestor_witness :
  _get_simple_position Samples.two_branches [0]
  < _get_simple_position Samples.two_branches ([0] ++ [2])%list.
Proof.
  apply nested_ranked_after_ancestor; [discriminate | vm_compute; discriminate].
Defined.

(** X17: Two containers equally deep whose child indices add up to the same sum
    have the same rank, wherever they lie. *)
Theorem equal_depth_and_sum_collide (root : node) (p q : path) :
  subtree root p <> None -> subtree root q <> None ->
  List.length p = List.length q -> list_sum p = list_sum q ->
  _get_simple_position root p = _get_simple_position root q.
Proof.
  intros Vp Vq L S. rewrite !RankFacts.rank_formula by assumption.
  now rewrite L, S.
Qed.

Lemma equal_depth_and_sum_collide_witness :
  _get_simple_position Samples.two_branches [0; 1]
  = _get_simple_position Samples.two_branches [1; 0].
Proof.
  apply equal_depth_and_sum_collide; try reflexivity; vm_compute; discriminate.
Defined.

Lemma siblings_ranked_in_order_witness :
  _get_simple_position Samples.two_branches ([0] ++ [1])%list
  < _get_simple_position Samples.two_branches ([0] ++ [2])%list.
Proof.
  apply RankFacts.siblings_ranked_in_order;
    [vm_compute; discriminate | vm_compute; discriminate | lia].
Defined.

(** ** The styled container of a user message *)

Module AncestorFacts.

Import Predicates.

Lemma parent_of_snoc (root : node) (rq : list nat) (x : nat) :
  Bs4.parent root (rev (x :: rq))
  = match subtree root (rev rq) with
    | Some n => Some (rev rq, n)
    | None => None
    end.
Proof. cbn [rev]. apply RankFacts.parent_snoc. Qed.

Lemma walk_from (root : node) (fuel : nat) :
  forall rp,
    styled_ancestor root (rev rp) fuel
    = List.find (fun a => is_styled (snd a))
                (firstn fuel (ancestors_from root rp)).
Proof.
  induction fuel as [|k IH]; intros rp; [reflexivity|].
  cbn [styled_ancestor]. destruct rp as [|x rq].
  - reflexivity.
  - rewrite parent_of_snoc. cbn [ancestors_from].
    destruct (subtree root (rev rq)) as [n|]; [|reflexivity].
    cbn [firstn List.find snd]. destruct (is_styled n); [reflexivity|].
    apply IH.
Qed.

End AncestorFacts.

(** X14: The container taken for a user message is its nearest ancestor carrying
    the styled classes, looked for among the ten nearest ancestors only. *)
Theorem styled_ancestor_is_nearest (root : node) (p : path) :
  styled_ancestor root p 10
  = List.find (fun a => is_styled (snd a))
              (firstn 10 (Predicates.ancestors root p)).
Proof.
  unfold Predicates.ancestors.
  rewrite <- (rev_involutive p) at 1.
  apply AncestorFacts.walk_from.
Qed.

(** ** The markdown document *)

(** X25: The document written for a parsed page has no date line, whatever the
    date formatter; it gives the identifier as extracted from the URL, [None]
    when there is none, and the number of messages that follow. A failure of
    the HTML parser is written as an error document. *)
Theorem markdown_of_parse_result
        (format_date : string -> option string) (pyg : Pygments.env)
        (now url : string) :
  (forall soup,
      generate_markdown format_date (parse_html pyg now (Parsed soup) url)
      = join nl
          (List.app
             [ "# " ++ _extract_title soup; ""; "## Conversation Details"; "";
               "- **URL**: " ++ url;
               "- **Share ID**: "
               ++ str_of_optional (Utils.extract_share_id url);
               "- **Messages**: "
               ++ str_of_nat (List.length (_extract_messages pyg soup));
               "- **Parsed**: " ++ now; ""; "## Conversation"; "" ]
             (flat_map message_lines (_extract_messages pyg soup))))
  /\ (forall e,
        generate_markdown format_date (parse_html pyg now (Raised e) url)
        = "# Error" ++ nl ++ nl ++ "Parsing error: " ++ e).
Proof. split; intros; reflexivity. Qed.

(** ** The language tag with Pygments *)

(** X24: With Pygments installed and guessing a lexer with a name, every fence is
    written with a tag that is not empty, whatever language was detected;
    the code behind it is unchanged. *)
Theorem fence_tag_not_empty_with_pygments
        (pyg : Pygments.env) (code_content language alias : string)
        (others : list string) :
  Pygments.available pyg = true ->
  Pygments.guess_lexer pyg code_content = Some (alias :: others) ->
  alias <> "" ->
  exists tag,
    tag <> ""
    /\ _apply_pygments_highlighting pyg code_content language
       = fence_mark ++ tag ++ nl ++ code_content ++ nl ++ fence_mark.
Proof.
  intros A G N.
  exists (LanguageRules.rendered_tag pyg code_content language). split.
  - now apply (CodeFacts.tag_not_empty_with_pygments pyg _ _ alias others).
  - apply CodeFacts.highlighting_is_fenced.
Qed.

Lemma fence_tag_not_empty_with_pygments_witness :
  exists tag,
    tag <> ""
    /\ _apply_pygments_highlighting Samples.with_pygments "alpha" ""
       = fence_mark ++ tag ++ nl ++ "alpha" ++ nl ++ fence_mark.
Proof.
  apply (fence_tag_not_empty_with_pygments
           Samples.with_pygments "alpha" "" "text" []);
    [reflexivity | reflexivity | discriminate].
Defined.

Lemma no_markers_no_turns_witness :
  _extract_messages Samples.with_pygments Samples.labelled_blocks = [].
Proof.
  apply TurnFacts.no_markers_no_turns; reflexivity.
Defined.

(** ** Texts without any character of a file name *)

Module UntitledFacts.

Import Utils Predicates.

Lemma all_chars_filter_kept (q p : ascii -> bool) (s : string) :
  all_chars q s = true -> all_chars q (filter_chars p s) = true.
Proof.
  induction s as [|x r IH]; simpl; [reflexivity|].
  intros H. apply andb_true_iff in H as [Hx Hr].
  destruct (p x); simpl; [now rewrite Hx, IH | now apply IH].
Qed.

Lemma filter_chars_narrow (p q : ascii -> bool) (s : string) :
  all_chars (fun c => negb (p c) || q c) s = true ->
  all_chars q (filter_chars p s) = true.
Proof.
  induction s as [|x r IH]; simpl; [reflexivity|].
  intros H. apply andb_true_iff in H as [Hx Hr].
  destruct (p x) eqn:Px; simpl; [|now apply IH].
  cbn in Hx. now rewrite Hx, IH.
Qed.

Lemma drop_while_all (p : ascii -> bool) (s : string) :
  all_chars p s = true -> drop_while p s = "".
Proof.
  induction s as [|x r IH]; simpl; [reflexivity|].
  intros H. apply andb_true_iff in H as [Hx Hr]. now rewrite Hx, IH.
Qed.

Lemma all_chars_rstrip (q : ascii -> bool) (s : string) :
  all_chars q s = true -> all_chars q (rstrip s) = true.
Proof.
  rewrite SanitizeFacts.rstrip_is_rstrip_by. apply NameFacts.all_chars_rstrip_by.
Qed.

End UntitledFacts.

(** X6: A text without a letter, digit, hyphen or underscore is given the name
    [untitled], whatever the limit. *)
Theorem sanitize_filename_untitled (text : string) (max_length : Z) :
  all_chars (fun c => negb (Utils.is_filename_char c)) text = true ->
  Utils.sanitize_filename text max_length = "untitled".
Proof.
  intros H. unfold Utils.sanitize_filename.
  set (t1 := filter_chars _ text).
  assert (all_chars (fun c => negb (Utils.is_filename_char c)) (strip t1) = true)
    as H1.
  { unfold strip, lstrip.
    apply UntitledFacts.all_chars_rstrip, NameFacts.all_chars_drop_while.
    now apply UntitledFacts.all_chars_filter_kept. }
  set (t2 := sub_runs isspace "-" (strip t1)).
  assert (all_chars (fun c => negb (Utils.is_filename_char c)
                              || Utils.is_hyphen c) t2 = true) as H2.
  { apply NameFacts.all_chars_sub_runs; [reflexivity|].
    eapply NameFacts.all_chars_weaken; [|exact H1].
    intros c Hc. now rewrite Hc. }
  set (t3 := filter_chars Utils.is_filename_char t2).
  assert (all_chars Utils.is_hyphen t3 = true) as H3
      by now apply UntitledFacts.filter_chars_narrow.
  set (t4 := sub_runs Utils.is_hyphen "-" t3).
  assert (all_chars Utils.is_hyphen t4 = true) as H4
      by (apply NameFacts.all_chars_sub_runs; [reflexivity | exact H3]).
  unfold strip_by, lstrip_by.
  rewrite (UntitledFacts.drop_while_all _ _ H4). cbn [rstrip_by].
  assert (slice_to max_length "" = "") as E.
  { unfold slice_to. destruct (0 <=? max_length)%Z;
      [destruct (Z.to_nat max_length) | cbn]; reflexivity. }
  destruct (max_length <? len "")%Z; [rewrite E|]; reflexivity.
Qed.

Lemma sanitize_filename_untitled_witness :
  Utils.sanitize_filename "?! (*) ~" 50 = "untitled".
Proof. apply sanitize_filename_untitled. reflexivity. Defined.
